(** * PLIP report normalisation: [visual.py] and [xmltojson.py]

    A shallow embedding of the two scripts of the repository and the
    properties of their normalisation layer.

    - [Py]        : the Python built-ins the scripts rely on (string methods,
                    the three regular expressions, [int], [str], [sorted]);
    - [Json]      : parsed JSON values as [json.load] returns them;
    - [Visual]    : [make_res_label], [normalize_json], [build_counts];
    - [XmlToJson] : [tag_localname], [find_residue_info],
                    [walk_and_collect], [main].

    Strings are Rocq strings of 8-bit characters and stand for ASCII text:
    the character classes [A-Z], [\d], [\s] and [str.lower] are the ASCII
    ones.  Python integers are [Z]; the interpreter's limit on the length
    of a decimal conversion is not modelled.  Python dictionaries keep
    insertion order, so they are association lists (with distinct keys
    when they come from a document); a lookup takes the first binding of a
    key. *)

From Stdlib Require Import List String Ascii ZArith Bool Lia.
From Stdlib Require Import Sorted Permutation.
From Stdlib Require Import Decimal DecimalString DecimalZ.
Import ListNotations.

Set Warnings "-register-all".

Open Scope string_scope.
Open Scope Z_scope.

(* ================================================================== *)
(** * Python built-ins                                                  *)
(* ================================================================== *)

Module Py.

(** ** Character classes *)

Definition code (c : ascii) : nat := nat_of_ascii c.

Definition between (lo hi : nat) (c : ascii) : bool :=
  (Nat.leb lo (code c) && Nat.leb (code c) hi)%bool.

(** [[A-Z]] *)
Definition is_upper : ascii -> bool := between 65 90.
(** [[a-z]] *)
Definition is_lower : ascii -> bool := between 97 122.
(** [[A-Za-z]] *)
Definition is_alpha (c : ascii) : bool := (is_upper c || is_lower c)%bool.
(** [\d] *)
Definition is_digit : ascii -> bool := between 48 57.
(** [\s], also what [str.strip()] removes: TAB, LF, VT, FF, CR, the four
    separators 0x1c-0x1f and the blank. *)
Definition is_space (c : ascii) : bool :=
  (between 9 13 c || between 28 32 c)%bool.

Definition minus_sign : ascii := "-"%char.

(** ** [str] methods *)

Definition lower_char (c : ascii) : ascii :=
  if is_upper c then ascii_of_nat (code c + 32) else c.

(** [s.lower()] *)
Fixpoint lower (s : string) : string :=
  match s with
  | EmptyString => EmptyString
  | String c s' => String (lower_char c) (lower s')
  end.

(** [kw in s] on strings: [kw] occurs in [s] as a contiguous substring. *)
Fixpoint contains (kw s : string) : bool :=
  (String.prefix kw s ||
   match s with
   | EmptyString => false
   | String _ s' => contains kw s'
   end)%bool.

(** Longest prefix of characters of a class, and what follows it. *)
Fixpoint take_while (p : ascii -> bool) (s : string) : string :=
  match s with
  | EmptyString => EmptyString
  | String c s' => if p c then String c (take_while p s') else EmptyString
  end.

Fixpoint drop_while (p : ascii -> bool) (s : string) : string :=
  match s with
  | EmptyString => EmptyString
  | String c s' => if p c then drop_while p s' else s
  end.

Fixpoint all_chars (p : ascii -> bool) (s : string) : bool :=
  match s with
  | EmptyString => true
  | String c s' => (p c && all_chars p s')%bool
  end.

(** [s.rstrip()], by recursion from the right end. *)
Fixpoint rstrip (s : string) : string :=
  match s with
  | EmptyString => EmptyString
  | String c s' =>
      match rstrip s' with
      | EmptyString => if is_space c then EmptyString else String c EmptyString
      | r => String c r
      end
  end.

(** [s.strip()] *)
Definition strip (s : string) : string := rstrip (drop_while is_space s).

(** [s.split(sep)[-1]] for a one-character separator: what follows the
    last occurrence of [sep], the whole string when there is none. *)
Fixpoint after_last (sep : ascii) (s : string) : string :=
  match s with
  | EmptyString => EmptyString
  | String c s' =>
      if Ascii.eqb c sep then after_last sep s'
      else if contains (String sep EmptyString) s' then after_last sep s'
      else s
  end.

(** [x in (a, b, ...)] for a tuple of strings. *)
Definition mem (x : string) (l : list string) : bool :=
  existsb (String.eqb x) l.

(** ** Integers and their decimal text *)

(** [str(n)] for an [int]. *)
Definition str_of_int (n : Z) : string :=
  NilZero.string_of_int (Z.to_int n).

(** [int(s)]; [None] is [ValueError]. *)
Definition int_of_str (s : string) : option Z :=
  option_map Z.of_int (NilZero.int_of_string s).

(** ** Regular expressions *)

(** [re.search(r"-?\d+", s)]: the text of the leftmost match.  At a
    position the pattern matches a minus sign followed by a digit, or a
    digit; the digits are then taken greedily. *)
Fixpoint search_int (s : string) : option string :=
  match s with
  | EmptyString => None
  | String c s' =>
      if is_digit c then Some (String c (take_while is_digit s'))
      else if Ascii.eqb c minus_sign then
        match s' with
        | String d _ =>
            if is_digit d then Some (String c (take_while is_digit s'))
            else search_int s'
        | EmptyString => None
        end
      else search_int s'
  end.

(** [int(re.search(r"-?\d+", s).group())]; [None] when the search finds
    nothing (the [AttributeError] the callers catch). *)
Definition first_int (s : string) : option Z :=
  match search_int s with
  | Some g => int_of_str g
  | None => None
  end.

(** The first [k] characters when all of them are upper-case letters,
    with the rest of the string. *)
Fixpoint take_upper (k : nat) (s : string) : option (string * string) :=
  match k with
  | O => Some (EmptyString, s)
  | S k' =>
      match s with
      | String c s' =>
          if is_upper c then
            match take_upper k' s' with
            | Some (u, r) => Some (String c u, r)
            | None => None
            end
          else None
      | EmptyString => None
      end
  end.

(** [(-?\d+)] at the head of [s]: the matched text and the rest. *)
Definition take_signed (s : string) : option (string * string) :=
  match s with
  | String c s' =>
      if is_digit c then
        Some (String c (take_while is_digit s'), drop_while is_digit s')
      else if Ascii.eqb c minus_sign then
        match s' with
        | String d _ =>
            if is_digit d then
              Some (String c (take_while is_digit s'), drop_while is_digit s')
            else None
        | EmptyString => None
        end
      else None
  | EmptyString => None
  end.

(** [([A-Za-z]?)] at the head of [s]. *)
Definition take_letter (s : string) : string :=
  match s with
  | String c _ => if is_alpha c then String c EmptyString else EmptyString
  | EmptyString => EmptyString
  end.

(** The remainder of the residue pattern once group 1 has [k] letters:
    [\s*(-?\d+)\s*([A-Za-z]?)].  Each star is greedy; what follows a star
    never starts with a character of the star's class, and the tail after
    the number always matches, so the greedy choice is the only one the
    backtracking matcher can succeed with. *)
Definition residue_match_with (k : nat) (s : string)
  : option (string * string * string) :=
  match take_upper k s with
  | Some (g1, r1) =>
      match take_signed (drop_while is_space r1) with
      | Some (g2, r2) => Some (g1, g2, take_letter (drop_while is_space r2))
      | None => None
      end
  | None => None
  end.

(** [re.match(r'([A-Z]{2,4})\s*(-?\d+)\s*([A-Za-z]?)', s)]: groups 1, 2
    and 3 of the match anchored at the start of [s].  The counted
    repetition tries four letters, then three, then two. *)
Definition residue_match (s : string) : option (string * string * string) :=
  match residue_match_with 4 s with
  | Some g => Some g
  | None =>
      match residue_match_with 3 s with
      | Some g => Some g
      | None => residue_match_with 2 s
      end
  end.

(** ** [sorted(xs, key=f)]: a stable sort, here by insertion.  Python's
    sort is stable and the keys are integers, so the result is the one
    any stable sort gives. *)
Section Sorted.
Context {A : Type} (key : A -> Z).

Fixpoint insert_by (x : A) (l : list A) : list A :=
  match l with
  | [] => [x]
  | y :: l' => if key x <=? key y then x :: l else y :: insert_by x l'
  end.

Definition sorted (l : list A) : list A := fold_right insert_by [] l.

End Sorted.

End Py.

(* ================================================================== *)
(** * Parsed JSON values                                                *)
(* ================================================================== *)

Module Json.

(** What [json.load] builds.  A Python [float] is carried by its [repr]
    text, the only thing the scripts observe of it besides its truth
    value.  [JNull] is Python's [None]. *)
Inductive json : Type :=
| JNull
| JBool (b : bool)
| JInt (n : Z)
| JFloat (repr : string)
| JStr (s : string)
| JList (items : list json)
| JDict (entries : list (string * json)).

(** [bool(v)] *)
Definition truthy (v : json) : bool :=
  match v with
  | JNull => false
  | JBool b => b
  | JInt n => negb (n =? 0)
  | JFloat r => negb (String.eqb r "0.0" || String.eqb r "-0.0")
  | JStr s => negb (String.eqb s "")
  | JList l => match l with [] => false | _ => true end
  | JDict d => match d with [] => false | _ => true end
  end.

(** [a or b] *)
Definition py_or (a b : json) : json := if truthy a then a else b.

(** [d.get(k)] on an association list of any value type. *)
Fixpoint assoc {V : Type} (d : list (string * V)) (k : string) : option V :=
  match d with
  | [] => None
  | (k', v) :: d' => if String.eqb k' k then Some v else assoc d' k
  end.

(** [d.get(k)] on a JSON object: [None] when the key is absent. *)
Definition get (d : list (string * json)) (k : string) : json :=
  match assoc d k with
  | Some v => v
  | None => JNull
  end.

Definition is_str (v : json) : bool :=
  match v with JStr _ => true | _ => false end.

Definition is_none (v : json) : bool :=
  match v with JNull => true | _ => false end.

End Json.

(* ================================================================== *)
(** * The four interaction categories                                   *)
(* ================================================================== *)

Inductive category : Type := HBonds | Hydrophobic | Ionic | WaterBridges.

Definition category_eqb (a b : category) : bool :=
  match a, b with
  | HBonds, HBonds | Hydrophobic, Hydrophobic
  | Ionic, Ionic | WaterBridges, WaterBridges => true
  | _, _ => false
  end.

Definition all_categories : list category :=
  [HBonds; Hydrophobic; Ionic; WaterBridges].

(** The lists a normaliser fills, one per category. *)
Record bins : Type := mkBins {
  b_hbonds : list Json.json;
  b_hydrophobic : list Json.json;
  b_ionic : list Json.json;
  b_water : list Json.json
}.

Definition empty_bins : bins := mkBins [] [] [] [].

(** [out[c]] *)
Definition bin (c : category) (out : bins) : list Json.json :=
  match c with
  | HBonds => b_hbonds out
  | Hydrophobic => b_hydrophobic out
  | Ionic => b_ionic out
  | WaterBridges => b_water out
  end.

(** [out[c].extend(items)] *)
Definition extend (c : category) (items : list Json.json) (out : bins) : bins :=
  match c with
  | HBonds =>
      mkBins (b_hbonds out ++ items) (b_hydrophobic out) (b_ionic out)
             (b_water out)
  | Hydrophobic =>
      mkBins (b_hbonds out) (b_hydrophobic out ++ items) (b_ionic out)
             (b_water out)
  | Ionic =>
      mkBins (b_hbonds out) (b_hydrophobic out) (b_ionic out ++ items)
             (b_water out)
  | WaterBridges =>
      mkBins (b_hbonds out) (b_hydrophobic out) (b_ionic out)
             (b_water out ++ items)
  end.

(** First keyword of a table, in declaration order, that occurs in [s]:
    the loop [for kw, mapped in mapping.items(): if kw in s: ...; break]. *)
Fixpoint first_keyword (mapping : list (string * category)) (s : string)
  : option category :=
  match mapping with
  | [] => None
  | (kw, mapped) :: rest =>
      if Py.contains kw s then Some mapped else first_keyword rest s
  end.

(* ================================================================== *)
(** * [visual.py]                                                       *)
(* ================================================================== *)

Module Visual.
Import Json.

Section WithRepr.

(** [str(v)] of a list or a dictionary is Python's [repr] of the whole
    nested value; the scripts only ever scan that text, so it is a
    parameter of the model. *)
Variable container_repr : json -> string.

(** [str(v)], which is also what an f-string field [{v}] renders. *)
Definition py_str (v : json) : string :=
  match v with
  | JNull => "None"
  | JBool true => "True"
  | JBool false => "False"
  | JInt n => Py.str_of_int n
  | JFloat r => r
  | JStr s => s
  | JList _ | JDict _ => container_repr v
  end.

(** The number field as the final f-string prints it:
    [try: num = int(re.search(r"-?\d+", str(num)).group())]
    [except: num = str(num)]. *)
Definition num_text (num : json) : string :=
  match Py.first_int (py_str num) with
  | Some n => Py.str_of_int n
  | None => py_str num
  end.

(** Lines 15-17: the probes of the synonym keys, each an [or]-chain. *)
Definition name_of (item : list (string * json)) : json :=
  py_or (py_or (py_or (get item "resname") (get item "residue_name"))
               (get item "residue"))
        (get item "name").

Definition num_of (item : list (string * json)) : json :=
  py_or (py_or (py_or (py_or (get item "resnr") (get item "residue_number"))
                      (get item "residue_id"))
               (get item "resSeq"))
        (get item "number").

Definition chain_of (item : list (string * json)) : json :=
  py_or (py_or (py_or (get item "chain") (get item "chain_id"))
               (get item "chainId"))
        (JStr "").

(** Lines 18-23: the three fields after the optional back-fill from a
    free-text [label]. *)
Definition backfill (item : list (string * json)) : json * json * json :=
  let name := name_of item in
  let num := num_of item in
  let chain := chain_of item in
  if (is_none name && is_str (get item "label"))%bool then
    match get item "label" with
    | JStr txt =>
        match Py.residue_match txt with
        | Some (g1, g2, g3) => (JStr g1, JStr g2, py_or (JStr g3) chain)
        | None => (name, num, chain)
        end
    | _ => (name, num, chain)
    end
  else (name, num, chain).

(** The label of a dictionary item, lines 15-30. *)
Definition dict_label (item : list (string * json)) : string :=
  let '(name, num, chain) := backfill item in
  let name := py_or name (JStr "UNK") in
  let num := py_or num (JStr "?") in
  if truthy chain then py_str name ++ num_text num ++ "_" ++ py_str chain
  else py_str name ++ num_text num.

(** [make_res_label(item)]; lines 9-14 for an item that is not a
    dictionary. *)
Definition make_res_label (item : json) : string :=
  match item with
  | JDict d => dict_label d
  | _ =>
      let s := py_str item in
      match Py.residue_match s with
      | Some (g1, g2, g3) =>
          if negb (String.eqb g3 "") then g1 ++ g2 ++ "_" ++ g3 else g1 ++ g2
      | None => s
      end
  end.

(** ** [normalize_json] *)

(** The keyword table, in declaration order. *)
Definition mapping : list (string * category) :=
  [ ("hydrogen", HBonds); ("hbond", HBonds); ("hb", HBonds);
    ("hydrophobic", Hydrophobic); ("hydro", Hydrophobic); ("hyd", Hydrophobic);
    ("ionic", Ionic); ("salt", Ionic);
    ("water", WaterBridges); ("bridge", WaterBridges);
    ("waters", WaterBridges) ].

(** The four canonical top-level keys with their [out_map] category. *)
Definition canonical_keys : list (string * category) :=
  [ ("hydrogen_bonds", HBonds); ("hydrophobic_contacts", Hydrophobic);
    ("ionic_interactions", Ionic); ("water_bridges", WaterBridges) ].

(** [lower_keys.get(canonical)] for
    [lower_keys = {k.lower(): k for k in plip_json.keys()}]: of the keys
    with that lower-case form the comprehension keeps the last one. *)
Fixpoint lower_keys_get (keys : list string) (canonical : string)
  : option string :=
  match keys with
  | [] => None
  | k :: ks =>
      match lower_keys_get ks canonical with
      | Some k' => Some k'
      | None => if String.eqb (Py.lower k) canonical then Some k else None
      end
  end.

(** What [list.extend(v)] iterates over: the items of a list, the keys of
    a dictionary, the characters of a string; [None] is the [TypeError]
    of a value that is not iterable. *)
Definition iterate (v : json) : option (list json) :=
  match v with
  | JList l => Some l
  | JDict d => Some (map (fun kv => JStr (fst kv)) d)
  | JStr s =>
      Some (map (fun c => JStr (String c EmptyString)) (list_ascii_of_string s))
  | _ => None
  end.

(** One round of the loop over the canonical names, lines 55-63. *)
Definition use_canonical (plip_json : list (string * json))
    (acc : option bins) (ck : string * category) : option bins :=
  match acc with
  | None => None
  | Some out =>
      match lower_keys_get (map fst plip_json) (fst ck) with
      | Some k =>
          match iterate (get plip_json k) with
          | Some items => Some (extend (snd ck) items out)
          | None => None
          end
      | None => Some out
      end
  end.

(** Lines 79-84: the category hinted by the first item of the list. *)
Definition type_hint (val : list json) : option category :=
  match val with
  | JDict d :: _ =>
      match py_or (py_or (get d "type") (get d "interaction")) (JStr "") with
      | JStr t => first_keyword mapping (Py.lower t)
      | _ => None
      end
  | _ => None
  end.

(** One round of the loop over the items of the document, lines 66-89. *)
Definition heuristic_step (out : bins) (kv : string * json) : bins :=
  match snd kv with
  | JList val =>
      match first_keyword mapping (Py.lower (fst kv)) with
      | Some chosen => extend chosen val out
      | None =>
          match type_hint val with
          | Some chosen => extend chosen val out
          | None => extend Hydrophobic val out
          end
      end
  | _ => out
  end.

(** [normalize_json(plip_json)]; [None] when [extend] raises. *)
Definition normalize_json (plip_json : list (string * json)) : option bins :=
  match
    fold_left (use_canonical plip_json) canonical_keys (Some empty_bins)
  with
  | Some out => Some (fold_left heuristic_step plip_json out)
  | None => None
  end.

(** The dictionary [normalize_json] returns was created from
    [set(mapping.values())], so the order of its keys is the iteration
    order of that set, [order] here. *)
Definition as_dict (order : list category) (out : bins)
  : list (category * list json) :=
  map (fun c => (c, bin c out)) order.

(** ** [build_counts] *)

(** A row of the table: the columns H-bonds, Hydrophobic, Ionic and
    Water bridges. *)
Record row : Type := mkRow {
  n_hbonds : Z; n_hydrophobic : Z; n_ionic : Z; n_water : Z
}.

Definition zero_row : row := mkRow 0 0 0 0.

(** [r[itype] += 1] *)
Definition bump (itype : category) (r : row) : row :=
  match itype with
  | HBonds =>
      mkRow (n_hbonds r + 1) (n_hydrophobic r) (n_ionic r) (n_water r)
  | Hydrophobic =>
      mkRow (n_hbonds r) (n_hydrophobic r + 1) (n_ionic r) (n_water r)
  | Ionic =>
      mkRow (n_hbonds r) (n_hydrophobic r) (n_ionic r + 1) (n_water r)
  | WaterBridges =>
      mkRow (n_hbonds r) (n_hydrophobic r) (n_ionic r) (n_water r + 1)
  end.

(** [counts[label][itype] += 1] on the [defaultdict]: a label seen for the
    first time is inserted last, with a row of zeros. *)
Fixpoint incr (label : string) (itype : category)
    (counts : list (string * row)) : list (string * row) :=
  match counts with
  | [] => [(label, bump itype zero_row)]
  | (l, r) :: rest =>
      if String.eqb l label then (l, bump itype r) :: rest
      else (l, r) :: incr label itype rest
  end.

(** The body of the inner loop, lines 97-99. *)
Definition count_item (itype : category)
    (st : list (string * row) * Z) (it : json) : list (string * row) * Z :=
  (incr (make_res_label it) itype (fst st), snd st + 1).

(** The two nested loops, lines 95-99. *)
Definition count_all (normalized : list (category * list json))
  : list (string * row) * Z :=
  fold_left (fun st entry => fold_left (count_item (fst entry)) (snd entry) st)
            normalized ([], 0).

Definition sort_key (lbl : string) : Z :=
  match Py.first_int lbl with
  | Some n => n
  | None => 10 ^ 9
  end.

(** [build_counts(normalized)]: the rows of the data frame, each with its
    index label, and the total.  [DataFrame.from_dict(counts,
    orient='index')] lists the rows in the insertion order of [counts]. *)
Definition build_counts (normalized : list (category * list json))
  : list (string * row) * Z :=
  let '(counts, total) := count_all normalized in
  match counts with
  | [] => ([], total)
  | _ => (Py.sorted (fun r => sort_key (fst r)) counts, total)
  end.

(** ** [main] *)

(** [main(json_path, out_png, out_csv)] from the parsed document to the
    data frame and the total it hands to the CSV writer and to the plot,
    lines 142-143; [None] when [normalize_json] raises.  [order] is the key
    order of the dictionary [normalize_json] returns. *)
Definition main (order : list category) (plip_json : list (string * json))
  : option (list (string * row) * Z) :=
  match normalize_json plip_json with
  | Some normalized => Some (build_counts (as_dict order normalized))
  | None => None
  end.

End WithRepr.
End Visual.

(* ================================================================== *)
(** * [xmltojson.py]                                                    *)
(* ================================================================== *)

Module XmlToJson.
Import Json.

(** An [xml.etree.ElementTree.Element]: tag, attributes, text and child
    elements in document order. *)
Inductive element : Type :=
| Element (tag : string) (attrib : list (string * string))
          (text : option string) (children : list element).

Definition tag (e : element) : string :=
  match e with Element t _ _ _ => t end.
Definition attrib (e : element) : list (string * string) :=
  match e with Element _ a _ _ => a end.
Definition text (e : element) : option string :=
  match e with Element _ _ x _ => x end.
Definition children (e : element) : list element :=
  match e with Element _ _ _ cs => cs end.

(** [elem.iter()]: the element, then its descendants, in document order. *)
Fixpoint iter (e : element) : list element :=
  match e with
  | Element _ _ _ cs => e :: flat_map iter cs
  end.

(** A string or [None], as [attrib.get] and the probes return it. *)
Definition truthy_s (a : option string) : bool :=
  match a with
  | Some s => negb (String.eqb s "")
  | None => false
  end.

(** [a or b] *)
Definition or_s (a b : option string) : option string :=
  if truthy_s a then a else b.

Definition is_none_s (a : option string) : bool :=
  match a with None => true | Some _ => false end.

(** [str(a)] *)
Definition str_s (a : option string) : string :=
  match a with Some s => s | None => "None" end.

Definition tag_localname (t : string) : string :=
  Py.lower (Py.after_last "}"%char t).

(** ** [find_residue_info] *)

Definition fields : Type := option string * option string * option string.

(** Lines 29-33: the probes of the element's own attributes. *)
Definition attrib_fields (a : list (string * string)) : fields :=
  (or_s (or_s (or_s (or_s (assoc a "resname") (assoc a "residue_name"))
                    (assoc a "residue"))
              (assoc a "name"))
        (assoc a "resName"),
   or_s (or_s (or_s (or_s (or_s (assoc a "resnr") (assoc a "residue_number"))
                          (assoc a "residue_id"))
                    (assoc a "number"))
              (assoc a "seq"))
        (assoc a "resSeq"),
   or_s (or_s (assoc a "chain") (assoc a "chain_id")) (assoc a "chainId")).

(** [child.text.strip() if child.text else None] *)
Definition stripped_text (child : element) : option string :=
  if truthy_s (text child) then option_map Py.strip (text child) else None.

(** The body of the loop of lines 37-45. *)
Definition text_step (st : fields) (child : element) : fields :=
  let '(name, num, chain) := st in
  let t := tag_localname (tag child) in
  let txt := stripped_text child in
  let name :=
    if (Py.mem t ["resname"; "residue_name"; "residue"; "name"; "residueName"]
        && truthy_s txt)%bool then or_s name txt else name in
  let num :=
    if (Py.mem t ["resnr"; "residue_number"; "residue_id"; "number";
                  "residueNumber"]
        && truthy_s txt)%bool then or_s num txt else num in
  let chain :=
    if (Py.mem t ["chain"; "chain_id"; "chainid"] && truthy_s txt)%bool
    then or_s chain txt else chain in
  (name, num, chain).

(** The test of line 50. *)
Definition resid_child (child : element) : bool :=
  (Py.contains "resid" (tag_localname (tag child)) ||
   Py.contains "resid"
     (match assoc (attrib child) "type" with
      | Some ty => Py.lower ty
      | None => ""
      end))%bool.

(** The body of the loop of lines 49-55. *)
Definition resid_step (st : fields) (child : element) : fields :=
  let '(name, num, chain) := st in
  if resid_child child then
    let c_at := attrib child in
    (or_s (or_s name (assoc c_at "resname")) (assoc c_at "name"),
     or_s (or_s num (assoc c_at "resnr")) (assoc c_at "number"),
     or_s chain (assoc c_at "chain"))
  else st.

Definition incomplete (st : fields) : bool :=
  let '(name, num, _) := st in (is_none_s name || is_none_s num)%bool.

(** The three fields when line 57 is reached. *)
Definition probe (elem : element) : fields :=
  let st := attrib_fields (attrib elem) in
  let st := if incomplete st then fold_left text_step (children elem) st
            else st in
  if incomplete st then fold_left resid_step (children elem) st else st.

(** [find_residue_info(elem)]: the dictionary with the keys [resname],
    [resnr] and [chain], or [None]. *)
Definition find_residue_info (elem : element) : option json :=
  let '(name, num, chain) := probe elem in
  if (negb (truthy_s name) && negb (truthy_s num))%bool then None
  else
    let rn := match Py.first_int (str_s num) with
              | Some n => JInt n
              | None => JStr (str_s num)
              end in
    Some (JDict [ ("resname", match name with
                              | Some s => JStr s
                              | None => JNull
                              end);
                  ("resnr", rn);
                  ("chain", match chain with
                            | Some s => JStr s
                            | None => JStr ""
                            end) ]).

(** ** [walk_and_collect] *)

Definition mapping : list (string * category) :=
  [ ("hydrogen", HBonds); ("hbond", HBonds);
    ("hydrophobic", Hydrophobic); ("hydro", Hydrophobic);
    ("ionic", Ionic); ("salt", Ionic);
    ("water", WaterBridges); ("bridge", WaterBridges) ].

(** The output key of a category. *)
Definition outkey (c : category) : string :=
  match c with
  | HBonds => "hydrogen_bonds"
  | Hydrophobic => "hydrophobic_contacts"
  | Ionic => "ionic_interactions"
  | WaterBridges => "water_bridges"
  end.

(** Lines 91-106: the category of an element, from its tag, else from its
    [type], [interaction] or [interactionType] attribute. *)
Definition candidate (elem : element) : option category :=
  match first_keyword mapping (tag_localname (tag elem)) with
  | Some c => Some c
  | None =>
      let a := attrib elem in
      let typ := or_s (or_s (or_s (assoc a "type") (assoc a "interaction"))
                            (assoc a "interactionType"))
                      (Some "") in
      first_keyword mapping (Py.lower (str_s typ))
  end.

(** The test of line 114. *)
Definition residue_like (child : element) : bool :=
  (Py.contains "residue" (tag_localname (tag child)) ||
   Py.mem (tag_localname (tag child)) ["partner"; "atom"])%bool.

(** The body of the loop of lines 113-118, on the list being filled and
    the flag [found_any]. *)
Definition collect_step (st : list json * bool) (child : element)
  : list json * bool :=
  if residue_like child then
    match find_residue_info child with
    | Some ri => ((fst st ++ [ri])%list, true)
    | None => st
    end
  else st.

(** Lines 108-123 for an element of category [candidate]: the list
    [out[candidate]] after the element has been handled. *)
Definition collect (elem : element) (acc : list json) : list json :=
  let '(acc', found_any) := fold_left collect_step (iter elem) (acc, false) in
  if found_any then acc'
  else match find_residue_info elem with
       | Some ri => (acc' ++ [ri])%list
       | None => acc'
       end.

(** [out[c] = l] *)
Definition set_bin (c : category) (l : list json) (out : bins) : bins :=
  match c with
  | HBonds => mkBins l (b_hydrophobic out) (b_ionic out) (b_water out)
  | Hydrophobic => mkBins (b_hbonds out) l (b_ionic out) (b_water out)
  | Ionic => mkBins (b_hbonds out) (b_hydrophobic out) l (b_water out)
  | WaterBridges => mkBins (b_hbonds out) (b_hydrophobic out) (b_ionic out) l
  end.

(** The body of the loop over [root.iter()]. *)
Definition visit (out : bins) (elem : element) : bins :=
  match candidate elem with
  | Some c => set_bin c (collect elem (bin c out)) out
  | None => out
  end.

Definition walk_and_collect (root : element) : bins :=
  fold_left visit (iter root) empty_bins.

(** The object [main] hands to [json.dump]:
    [{k: collected.get(k, []) for k in keys}]. *)
Definition main (root : element) : json :=
  let collected := walk_and_collect root in
  JDict (map (fun c => (outkey c, JList (bin c collected))) all_categories).

End XmlToJson.

(* ================================================================== *)
(** * Vocabulary of the properties                                      *)
(* ================================================================== *)

Module Spec.
Import Json.

(** The synonym keys of a structured record, in probe order. *)
Definition name_keys : list string :=
  ["resname"; "residue_name"; "residue"; "name"].
Definition num_keys : list string :=
  ["resnr"; "residue_number"; "residue_id"; "resSeq"; "number"].

(** The first key of [keys] under which [item] holds a truthy value. *)
Definition first_truthy (keys : list string) (item : list (string * json))
  : option string :=
  find (fun k => truthy (get item k)) keys.

(** The chain part of a label: ["_" ++ chain], nothing for a falsy chain. *)
Definition chain_suffix (repr : json -> string) (item : list (string * json))
  : string :=
  if truthy (Visual.chain_of item)
  then "_" ++ Visual.py_str repr (Visual.chain_of item)
  else "".

(** The number part of a label for a stored value [v]: an integer is
    printed as it is, any other value gives the first signed integer of
    its text, or the text itself when it holds none. *)
Definition number_text (repr : json -> string) (v : json) : string :=
  match v with
  | JInt n => Py.str_of_int n
  | _ =>
      match Py.first_int (Visual.py_str repr v) with
      | Some n => Py.str_of_int n
      | None => Visual.py_str repr v
      end
  end.

(** ** The residue pattern *)

Definition starts_with (p : ascii -> bool) (s : string) : bool :=
  match s with String c _ => p c | EmptyString => false end.

(** An optional minus sign and at least one digit. *)
Definition is_signed_int (num : string) : bool :=
  match num with
  | String c ds =>
      if Ascii.eqb c Py.minus_sign
      then (starts_with Py.is_digit ds && Py.all_chars Py.is_digit ds)%bool
      else (Py.is_digit c && Py.all_chars Py.is_digit ds)%bool
  | EmptyString => false
  end.

(** The chain group before [rest]: one letter, or nothing when neither a
    letter nor white space comes next. *)
Definition is_chain (chain rest : string) : bool :=
  match chain with
  | EmptyString =>
      negb (starts_with Py.is_alpha rest || starts_with Py.is_space rest)
  | String c EmptyString => Py.is_alpha c
  | _ => false
  end.

(** [s] starts with two to four upper-case letters, optional white space,
    a signed integer taken to its last digit, optional white space and an
    optional letter; whatever follows is [rest]. *)
Definition label_shape (s name num chain : string) : Prop :=
  exists ws1 ws2 rest,
    s = name ++ ws1 ++ num ++ ws2 ++ chain ++ rest /\
    Py.all_chars Py.is_upper name = true /\
    (2 <= String.length name <= 4)%nat /\
    Py.all_chars Py.is_space ws1 = true /\
    is_signed_int num = true /\
    Py.all_chars Py.is_space ws2 = true /\
    starts_with Py.is_digit (ws2 ++ chain ++ rest) = false /\
    is_chain chain rest = true.

(** The pattern in the words of the specification: one to four upper-case
    letters, optional white space, an optional signed integer, an optional
    single letter. *)
Definition claimed_shape (s name num chain : string) : Prop :=
  exists ws,
    s = name ++ ws ++ num ++ chain /\
    Py.all_chars Py.is_upper name = true /\
    (1 <= String.length name <= 4)%nat /\
    Py.all_chars Py.is_space ws = true /\
    (num = "" \/ is_signed_int num = true) /\
    (chain = "" \/ exists c, chain = String c "" /\ Py.is_alpha c = true).

(** The label of the captured groups. *)
Definition render (name num chain : string) : string :=
  if String.eqb chain "" then name ++ num else name ++ num ++ "_" ++ chain.

(** ** The table of counts *)

(** The labels in the order in which they are first met. *)
Definition add_new (seen : list string) (x : string) : list string :=
  if existsb (String.eqb x) seen then seen else (seen ++ [x])%list.

Definition first_occurrences (l : list string) : list string :=
  fold_left add_new l [].

(** The encounter order of the labels of a report: category after
    category, item after item. *)
Definition encounter (repr : json -> string)
    (normalized : list (category * list json)) : list string :=
  first_occurrences
    (map (Visual.make_res_label repr) (List.concat (map snd normalized))).

Definition cell (c : category) (r : Visual.row) : Z :=
  match c with
  | HBonds => Visual.n_hbonds r
  | Hydrophobic => Visual.n_hydrophobic r
  | Ionic => Visual.n_ionic r
  | WaterBridges => Visual.n_water r
  end.

Definition row_total (r : Visual.row) : Z :=
  Visual.n_hbonds r + Visual.n_hydrophobic r + Visual.n_ionic r +
  Visual.n_water r.

(** The sum of all cells, and of the cells of one column. *)
Definition table_total (t : list (string * Visual.row)) : Z :=
  fold_right (fun e acc => row_total (snd e) + acc) 0 t.

Definition column_total (c : category) (t : list (string * Visual.row)) : Z :=
  fold_right (fun e acc => cell c (snd e) + acc) 0 t.

Definition row_nonneg (r : Visual.row) : Prop :=
  0 <= Visual.n_hbonds r /\ 0 <= Visual.n_hydrophobic r /\
  0 <= Visual.n_ionic r /\ 0 <= Visual.n_water r.

(** The number of items a report holds under category [c]. *)
Definition items_in (c : category)
    (normalized : list (category * list json)) : Z :=
  fold_right
    (fun e acc =>
       (if category_eqb (fst e) c then Z.of_nat (List.length (snd e)) else 0)
       + acc)
    0 normalized.

(** The items of a report, each with its category, in iteration order. *)
Definition tagged (normalized : list (category * list json))
  : list (category * json) :=
  flat_map (fun e => map (fun it => (fst e, it)) (snd e)) normalized.

(** The inner loop body of [build_counts] on a tagged item. *)
Definition count_tagged (repr : json -> string)
    (st : list (string * Visual.row) * Z) (ci : category * json) :=
  Visual.count_item repr (fst ci) st (snd ci).

(** The sort key of a row. *)
Definition label_key (r : string * Visual.row) : Z := Visual.sort_key (fst r).

Definition key_le {A : Type} (key : A -> Z) (a b : A) : Prop :=
  key a <= key b.

(** A label in which no integer is found. *)
Definition unparseable (lbl : string) : bool :=
  match Py.first_int lbl with None => true | Some _ => false end.

(** ** The JSON normaliser *)

(** What one top-level entry adds to category [c] in the keyword pass. *)
Definition contribution (c : category) (kv : string * json) : list json :=
  bin c (Visual.heuristic_step empty_bins kv).

(** The bins after the pass over the canonical names. *)
Definition canonical_pass (plip_json : list (string * json)) : option bins :=
  fold_left (Visual.use_canonical plip_json) Visual.canonical_keys
            (Some empty_bins).

(** ** Labels of structured records *)

(** The groups a free-text [label] field would back-fill. *)
Definition label_groups (item : list (string * json))
  : option (string * string * string) :=
  match get item "label" with
  | JStr t => Py.residue_match t
  | _ => None
  end.

(** The name and number parts of a label: the value under the first
    truthy synonym, else the sentinel. *)
Definition label_name (repr : json -> string) (item : list (string * json))
  : string :=
  match first_truthy name_keys item with
  | Some k => Visual.py_str repr (get item k)
  | None => "UNK"
  end.

Definition label_number (repr : json -> string) (item : list (string * json))
  : string :=
  match first_truthy num_keys item with
  | Some k => number_text repr (get item k)
  | None => "?"
  end.

(** ** The XML normaliser *)

(** The dictionary of an element, as a list of at most one item. *)
Definition own_info (e : XmlToJson.element) : list json :=
  match XmlToJson.find_residue_info e with Some ri => [ri] | None => [] end.

(** What the search below a classified element finds, in document order. *)
Definition harvest (e : XmlToJson.element) : list json :=
  flat_map (fun d => if XmlToJson.residue_like d then own_info d else [])
           (XmlToJson.iter e).

(** What a classified element appends: its harvest, else its own info. *)
Definition gathered (e : XmlToJson.element) : list json :=
  match harvest e with [] => own_info e | h => h end.

(** What an element appends to category [c]. *)
Definition emitted (c : category) (e : XmlToJson.element) : list json :=
  match XmlToJson.candidate e with
  | Some c' => if category_eqb c' c then gathered e else []
  | None => []
  end.

(** The residue child and the document of the round-trip example. *)
Definition ser12 : XmlToJson.element :=
  XmlToJson.Element "residue"
    [("resname", "SER"); ("resnr", "12"); ("chain", "A")] None [].

Definition ser12_report : json :=
  JDict [ ("hydrogen_bonds",
           JList [JDict [("resname", JStr "SER"); ("resnr", JInt 12);
                         ("chain", JStr "A")]]);
          ("hydrophobic_contacts", JList []);
          ("ionic_interactions", JList []);
          ("water_bridges", JList []) ].

(** The attribute names [find_residue_info] probes on the element. *)
Definition identity_attrs : list string :=
  ["resname"; "residue_name"; "residue"; "name"; "resName";
   "resnr"; "residue_number"; "residue_id"; "number"; "seq"; "resSeq"].

(** None of [keys] is bound to a non-empty value. *)
Definition lacks (a : list (string * string)) (keys : list string) : bool :=
  forallb (fun k => negb (XmlToJson.truthy_s (assoc a k))) keys.

(** A child that can supply neither a name nor a number: no text, and
    none of the attributes the nested probe reads. *)
Definition silent_child (child : XmlToJson.element) : bool :=
  (negb (XmlToJson.truthy_s (XmlToJson.stripped_text child)) &&
   lacks (XmlToJson.attrib child) ["resname"; "name"; "resnr"; "number"])%bool.

(** An element in which both the name and the number are absent. *)
Definition bare (e : XmlToJson.element) : bool :=
  (lacks (XmlToJson.attrib e) identity_attrs &&
   forallb silent_child (XmlToJson.children e))%bool.

(** Neither a name nor a number among the probed fields. *)
Definition anonymous (st : XmlToJson.fields) : bool :=
  let '(name, num, _) := st in
  (negb (XmlToJson.truthy_s name) && negb (XmlToJson.truthy_s num))%bool.

(** ** Further vocabulary: tags, documents, rows *)

Definition brace : ascii := "}"%char.

(** [s] holds a closing brace. *)
Definition has_brace (s : string) : bool :=
  Py.contains (String brace EmptyString) s.

(** The four canonical key names. *)
Definition canonical_names : list string := map fst Visual.canonical_keys.

(** The value the canonical pass reads for the name [ck]. *)
Definition canonical_value (d : list (string * json)) (ck : string)
  : option json :=
  option_map (get d) (Visual.lower_keys_get (map fst d) ck).

(** [extend] accepts the value. *)
Definition iterable (v : json) : bool :=
  match Visual.iterate v with Some _ => true | None => false end.

Definition is_list (v : json) : bool :=
  match v with JList _ => true | _ => false end.

(** The items of the list-valued entries of a document, in order. *)
Definition list_items (d : list (string * json)) : list json :=
  flat_map (fun kv => match snd kv with JList l => l | _ => [] end) d.

(** No key of the document is a canonical name, whatever its case. *)
Definition canonical_free (d : list (string * json)) : bool :=
  forallb (fun k => negb (Py.mem (Py.lower k) canonical_names)) (map fst d).

(** The four lists of a report, one after the other. *)
Definition all_bins (out : bins) : list json :=
  (b_hbonds out ++ b_hydrophobic out ++ b_ionic out ++ b_water out)%list.

(** The entries of a parsed document that is an object. *)
Definition document (v : json) : list (string * json) :=
  match v with JDict d => d | _ => [] end.

(** How many items of category [c] are labelled [lbl]. *)
Definition label_count (repr : json -> string) (c : category) (lbl : string)
    (normalized : list (category * list json)) : Z :=
  Z.of_nat
    (List.length
       (filter (fun ci =>
                  (category_eqb (fst ci) c &&
                   String.eqb (Visual.make_res_label repr (snd ci)) lbl)%bool)
               (tagged normalized))).

(** The row of a label in the dictionary of counts. *)
Definition row_of (counts : list (string * Visual.row)) (lbl : string)
  : Visual.row :=
  match assoc counts lbl with Some r => r | None => Visual.zero_row end.

End Spec.

(* ================================================================== *)
(** * Facts about the built-ins                                         *)
(* ================================================================== *)

Module PyFacts.
Import Py Spec.

Lemma append_nil_r (s : string) : s ++ "" = s.
Proof. induction s as [|c s IH]; cbn; congruence. Qed.

Lemma take_while_all p s : all_chars p s = true -> take_while p s = s.
Proof.
  induction s as [|c s IH]; cbn; auto.
  intros H. apply andb_true_iff in H as [-> H]. now rewrite IH.
Qed.

(** ** Decimal text of an integer *)

Lemma all_digits_uint d :
  all_chars is_digit (NilEmpty.string_of_uint d) = true.
Proof. induction d; cbn; auto. Qed.

Lemma uint_string_nonempty d :
  d <> Nil ->
  exists c s, NilEmpty.string_of_uint d = String c s /\ is_digit c = true.
Proof. destruct d; try congruence; intros _; cbn; eauto. Qed.

Lemma nilzero_nonnil d :
  d <> Nil -> NilZero.string_of_uint d = NilEmpty.string_of_uint d.
Proof. destruct d; intros H; try reflexivity. now destruct H. Qed.

Lemma pos_digits p :
  exists c s, is_digit c = true /\ all_chars is_digit s = true /\
    NilZero.string_of_uint (Pos.to_uint p) = String c s.
Proof.
  pose proof (DecimalPos.Unsigned.to_uint_nonnil p) as N.
  destruct (uint_string_nonempty _ N) as (c & s & E & Hc).
  pose proof (all_digits_uint (Pos.to_uint p)) as A. rewrite E in A.
  cbn in A. rewrite Hc in A. exists c, s.
  rewrite nilzero_nonnil by assumption. auto.
Qed.

(** [str(n)] is a digit string, after a minus sign when [n] is negative. *)
Lemma str_of_int_shape n :
  exists c s, is_digit c = true /\ all_chars is_digit s = true /\
    str_of_int n =
      if n <? 0 then String minus_sign (String c s) else String c s.
Proof.
  unfold str_of_int. destruct n as [|p|p]; cbn.
  - exists "0"%char, "". auto.
  - destruct (pos_digits p) as (c & s & Hc & Hs & E). exists c, s. auto.
  - destruct (pos_digits p) as (c & s & Hc & Hs & E). exists c, s.
    rewrite E. auto.
Qed.

Lemma search_int_str_of_int n : search_int (str_of_int n) = Some (str_of_int n).
Proof.
  destruct (str_of_int_shape n) as (c & s & Hc & Hs & E). rewrite E.
  destruct (n <? 0).
  - cbn. rewrite Hc. cbn. rewrite take_while_all by assumption.
    replace (is_digit minus_sign) with false by reflexivity. reflexivity.
  - cbn. rewrite Hc. now rewrite take_while_all.
Qed.

Lemma int_of_str_of_int n : int_of_str (str_of_int n) = Some n.
Proof.
  unfold int_of_str, str_of_int. rewrite NilZero.isi.
  - cbn. now rewrite DecimalZ.of_to.
  - destruct n; cbn; try discriminate.
    intros [= E]. now apply DecimalPos.Unsigned.to_uint_nonnil in E.
  - destruct n; cbn; try discriminate.
    intros [= E]. now apply DecimalPos.Unsigned.to_uint_nonnil in E.
Qed.

(** Reading back the text of an integer gives the integer. *)
Lemma first_int_str_of_int n : first_int (str_of_int n) = Some n.
Proof.
  unfold first_int. now rewrite search_int_str_of_int, int_of_str_of_int.
Qed.

(** ** What [re.search(r"-?\d+", s)] returns always converts with [int] *)

Lemma digit_char c :
  is_digit c = true ->
  exists f, forall d, uint_of_char c (Some d) = Some (f d).
Proof.
  destruct c as [[] [] [] [] [] [] [] []]; try discriminate; intros _;
    cbn; eexists; intros d; reflexivity.
Qed.

Lemma uint_of_digits s :
  all_chars is_digit s = true -> exists u, NilEmpty.uint_of_string s = Some u.
Proof.
  induction s as [|c s IH]; cbn; [eauto|].
  intros H. apply andb_true_iff in H as [Hc Hs].
  destruct (IH Hs) as [u ->]. destruct (digit_char c Hc) as [f Hf].
  rewrite Hf. eauto.
Qed.

Lemma all_chars_take_while p s : all_chars p (take_while p s) = true.
Proof.
  induction s as [|c s IH]; cbn; auto.
  destruct (p c) eqn:E; cbn; auto. now rewrite E.
Qed.

Lemma int_of_digit_run c s :
  is_digit c = true ->
  exists n, int_of_str (String c (take_while is_digit s)) = Some n.
Proof.
  intros Hc. unfold int_of_str, NilZero.int_of_string.
  replace (Ascii.eqb c "-") with false
    by (destruct c as [[] [] [] [] [] [] [] []]; try discriminate; reflexivity).
  destruct (uint_of_digits (String c (take_while is_digit s))) as [u Hu].
  { cbn. now rewrite Hc, all_chars_take_while. }
  unfold NilZero.uint_of_string. rewrite Hu. cbn. eauto.
Qed.

Lemma search_int_parses s g :
  search_int s = Some g -> exists n, int_of_str g = Some n.
Proof.
  induction s as [|c s IH]; cbn; [discriminate|].
  destruct (is_digit c) eqn:Hc.
  - intros [= <-]. now apply int_of_digit_run.
  - destruct (Ascii.eqb_spec c minus_sign) as [->|_]; [|exact IH].
    destruct s as [|d s']; [discriminate|].
    destruct (is_digit d) eqn:Hd; [|exact IH].
    intros [= <-]. cbn [take_while]. rewrite Hd.
    destruct (uint_of_digits (String d (take_while is_digit s'))) as [u Hu].
    { cbn. now rewrite Hd, all_chars_take_while. }
    unfold int_of_str, NilZero.int_of_string, NilZero.uint_of_string.
    cbn [Ascii.eqb minus_sign Bool.eqb]. rewrite Hu. cbn. eauto.
Qed.

(** ** The residue pattern *)

Lemma upper_not_others c : is_upper c = true ->
  is_space c = false /\ is_digit c = false /\ Ascii.eqb c minus_sign = false.
Proof.
  destruct c as [[] [] [] [] [] [] [] []]; try discriminate; intros _;
    repeat split.
Qed.

Lemma digit_not_others c : is_digit c = true ->
  is_space c = false /\ is_upper c = false /\
  Ascii.eqb c minus_sign = false /\ is_alpha c = false.
Proof.
  destruct c as [[] [] [] [] [] [] [] []]; try discriminate; intros _;
    repeat split.
Qed.

Lemma alpha_not_space c : is_alpha c = true -> is_space c = false.
Proof.
  destruct c as [[] [] [] [] [] [] [] []]; try discriminate; intros _;
    repeat split.
Qed.

Lemma take_drop p s : s = take_while p s ++ drop_while p s.
Proof.
  induction s as [|c s IH]; cbn; auto. destruct (p c); cbn; congruence.
Qed.

Lemma drop_while_head p s : starts_with p (drop_while p s) = false.
Proof.
  induction s as [|c s IH]; cbn; auto. destruct (p c) eqn:E; cbn; auto.
Qed.

Lemma drop_while_app p a b :
  all_chars p a = true -> starts_with p b = false -> drop_while p (a ++ b) = b.
Proof.
  induction a as [|c a IH]; cbn.
  - intros _ H. destruct b as [|d b]; cbn in *; auto. now rewrite H.
  - intros H Hb. apply andb_true_iff in H as [-> H]. auto.
Qed.

Lemma take_while_app p a b :
  all_chars p a = true -> starts_with p b = false -> take_while p (a ++ b) = a.
Proof.
  induction a as [|c a IH]; cbn.
  - intros _ H. destruct b as [|d b]; cbn in *; auto. now rewrite H.
  - intros H Hb. apply andb_true_iff in H as [-> H]. now rewrite IH.
Qed.

Lemma take_upper_sound k s g r :
  take_upper k s = Some (g, r) ->
  s = g ++ r /\ all_chars is_upper g = true /\ String.length g = k.
Proof.
  revert s g r. induction k as [|k IH]; cbn; intros s g r.
  - intros [= <- <-]. auto.
  - destruct s as [|c s]; [discriminate|].
    destruct (is_upper c) eqn:Hc; [|discriminate].
    destruct (take_upper k s) as [[u r']|] eqn:E; [|discriminate].
    intros [= <- <-]. destruct (IH _ _ _ E) as (-> & Hu & Hl).
    cbn. rewrite Hc, Hu, Hl. auto.
Qed.

Lemma take_upper_exact g r :
  all_chars is_upper g = true ->
  take_upper (String.length g) (g ++ r) = Some (g, r).
Proof.
  induction g as [|c g IH]; cbn; auto.
  intros H. apply andb_true_iff in H as [-> H]. now rewrite IH.
Qed.

Lemma take_upper_short k g r :
  all_chars is_upper g = true -> starts_with is_upper r = false ->
  (String.length g < k)%nat -> take_upper k (g ++ r) = None.
Proof.
  revert k. induction g as [|c g IH]; cbn; intros k Hg Hr Hk.
  - destruct k; [lia|]. cbn. destruct r as [|d r]; auto. cbn in Hr.
    now rewrite Hr.
  - apply andb_true_iff in Hg as [Hc Hg]. destruct k; [lia|]. cbn. rewrite Hc.
    rewrite IH; auto. lia.
Qed.

Lemma take_signed_sound s g r :
  take_signed s = Some (g, r) ->
  s = g ++ r /\ is_signed_int g = true /\ starts_with is_digit r = false.
Proof.
  unfold take_signed. destruct s as [|c s]; [discriminate|].
  destruct (is_digit c) eqn:Hc.
  - intros [= <- <-]. cbn. rewrite <- take_drop. split; auto.
    destruct (digit_not_others c Hc) as (_ & _ & -> & _).
    rewrite Hc, all_chars_take_while, drop_while_head. auto.
  - destruct (Ascii.eqb c minus_sign) eqn:Em; [|discriminate].
    destruct s as [|d s]; [discriminate|].
    destruct (is_digit d) eqn:Hd; [|discriminate].
    intros [= <- <-]. rewrite !Hd, drop_while_head. cbn [append is_signed_int].
    rewrite <- take_drop, Em. cbn [starts_with all_chars].
    rewrite Hd, all_chars_take_while. auto.
Qed.

Lemma take_signed_complete g r :
  is_signed_int g = true -> starts_with is_digit r = false ->
  take_signed (g ++ r) = Some (g, r).
Proof.
  unfold is_signed_int, take_signed. destruct g as [|c ds]; [discriminate|].
  cbn [append]. intros H Hr.
  destruct (Ascii.eqb_spec c minus_sign) as [->|Hm].
  - apply andb_true_iff in H as [Hh Hd].
    destruct ds as [|d ds]; [discriminate|]. cbn in Hh. cbn [append].
    rewrite Hh.
    change (String d (ds ++ r)) with (String d ds ++ r).
    rewrite take_while_app, drop_while_app; auto.
  - apply andb_true_iff in H as [Hc Hd]. rewrite Hc.
    rewrite take_while_app, drop_while_app; auto.
Qed.

Lemma take_letter_sound s :
  exists rest, s = take_letter s ++ rest /\
    (is_chain (take_letter s) rest = true \/ starts_with is_space s = true).
Proof.
  destruct s as [|c s]; cbn.
  - exists "". auto.
  - destruct (is_alpha c) eqn:Hc.
    + exists s. cbn. rewrite Hc. auto.
    + exists (String c s). cbn. rewrite Hc. cbn.
      destruct (is_space c); auto.
Qed.

Lemma take_letter_complete chain rest :
  is_chain chain rest = true ->
  take_letter (chain ++ rest) = chain /\
  starts_with is_space (chain ++ rest) = false.
Proof.
  unfold is_chain. destruct chain as [|c [|? ?]]; try discriminate.
  - cbn. intros H. apply negb_true_iff, orb_false_iff in H as [Ha Hs].
    destruct rest as [|d rest]; cbn in *; auto. now rewrite Ha.
  - cbn. intros H. rewrite H. split; auto. now apply alpha_not_space.
Qed.

Lemma starts_with_app p a b :
  starts_with p (a ++ b) =
  match a with EmptyString => starts_with p b | _ => starts_with p a end.
Proof. now destruct a. Qed.

Lemma signed_int_head g :
  is_signed_int g = true ->
  starts_with is_space g = false /\ starts_with is_upper g = false /\ g <> "".
Proof.
  destruct g as [|c ds]; [discriminate|]. cbn.
  destruct (Ascii.eqb_spec c minus_sign) as [->|_].
  - intros _. repeat split; discriminate.
  - intros H. apply andb_true_iff in H as [Hc _].
    destruct (digit_not_others c Hc) as (-> & -> & _).
    repeat split; discriminate.
Qed.

Lemma residue_match_with_sound k s g1 g2 g3 :
  (2 <= k <= 4)%nat ->
  residue_match_with k s = Some (g1, g2, g3) -> label_shape s g1 g2 g3.
Proof.
  intros Hk. unfold residue_match_with.
  destruct (take_upper k s) as [[u r1]|] eqn:E1; [|discriminate].
  destruct (take_signed (drop_while is_space r1)) as [[n r2]|] eqn:E2;
    [|discriminate].
  intros [= <- <- <-].
  apply take_upper_sound in E1 as (-> & Hu & Hl).
  apply take_signed_sound in E2 as (E2 & Hn & Hd).
  destruct (take_letter_sound (drop_while is_space r2)) as (rest & E3 & Hc).
  exists (take_while is_space r1), (take_while is_space r2), rest.
  rewrite <- E3, <- take_drop, <- E2, <- take_drop.
  repeat split; auto using all_chars_take_while; try lia.
  destruct Hc as [Hc|Hc]; auto. now rewrite drop_while_head in Hc.
Qed.

Lemma residue_match_with_complete s name num chain :
  label_shape s name num chain ->
  residue_match_with (String.length name) s = Some (name, num, chain) /\
  forall k, (String.length name < k)%nat -> residue_match_with k s = None.
Proof.
  intros (ws1 & ws2 & rest & -> & Hu & Hl & H1 & Hn & H2 & Hd & Hc).
  destruct (signed_int_head num Hn) as (Hns & Hnu & Hne).
  destruct (take_letter_complete _ _ Hc) as (Hc1 & Hc2).
  assert (Hs1 : starts_with is_space (num ++ ws2 ++ chain ++ rest) = false).
  { rewrite starts_with_app. destruct num; congruence. }
  split.
  - unfold residue_match_with. rewrite take_upper_exact by assumption.
    rewrite drop_while_app by assumption.
    rewrite take_signed_complete by assumption.
    rewrite drop_while_app by assumption. now rewrite Hc1.
  - intros k Hk. unfold residue_match_with.
    rewrite take_upper_short; auto.
    rewrite starts_with_app. destruct ws1 as [|c ws1].
    + rewrite starts_with_app. destruct num; congruence.
    + cbn in *. apply andb_true_iff in H1 as [H1 _].
      destruct (is_upper c) eqn:Eu; auto.
      apply upper_not_others in Eu as (Eu & _). congruence.
Qed.

Lemma residue_match_sound s g1 g2 g3 :
  residue_match s = Some (g1, g2, g3) -> label_shape s g1 g2 g3.
Proof.
  unfold residue_match.
  destruct (residue_match_with 4 s) as [[[a b] c]|] eqn:E4.
  { intros [= <- <- <-]. eapply residue_match_with_sound; [|eassumption]. lia. }
  destruct (residue_match_with 3 s) as [[[a b] c]|] eqn:E3.
  { intros [= <- <- <-]. eapply residue_match_with_sound; [|eassumption]. lia. }
  intros E2. eapply residue_match_with_sound; [|eassumption]. lia.
Qed.

Lemma residue_match_complete s name num chain :
  label_shape s name num chain -> residue_match s = Some (name, num, chain).
Proof.
  intros H. pose proof H as (_ & _ & _ & _ & _ & Hl & _).
  destruct (residue_match_with_complete _ _ _ _ H) as [Hk Hgt].
  unfold residue_match.
  assert (String.length name = 2 \/ String.length name = 3 \/
          String.length name = 4)%nat as [E|[E|E]] by lia;
    rewrite E in *.
  - rewrite (Hgt 4%nat), (Hgt 3%nat) by lia. exact Hk.
  - rewrite (Hgt 4%nat) by lia. now rewrite Hk.
  - now rewrite Hk.
Qed.

(** ** [sorted]: a permutation, in key order, stable *)

Section SortFacts.
Context {A : Type} (key : A -> Z).

Lemma insert_by_perm x l : Permutation (insert_by key x l) (x :: l).
Proof.
  induction l as [|y l IH]; cbn; auto.
  destruct (key x <=? key y); auto.
  rewrite IH. apply perm_swap.
Qed.

Lemma sorted_perm l : Permutation (sorted key l) l.
Proof.
  induction l as [|x l IH]; cbn; auto.
  rewrite insert_by_perm. auto.
Qed.

Lemma insert_by_sorted x l :
  StronglySorted (key_le key) l ->
  StronglySorted (key_le key) (insert_by key x l).
Proof.
  induction 1 as [|y l Hl IH Hy]; cbn.
  - repeat constructor.
  - destruct (Z.leb_spec (key x) (key y)) as [Hxy|Hxy].
    + constructor; [constructor; assumption|].
      constructor; [assumption|].
      eapply Forall_impl; [|exact Hy]. unfold key_le. intros; lia.
    + constructor; [assumption|].
      eapply Permutation_Forall; [symmetry; apply insert_by_perm|].
      constructor; [unfold key_le; lia | assumption].
Qed.

Lemma sorted_sorted l : StronglySorted (key_le key) (sorted key l).
Proof.
  induction l as [|x l IH]; cbn; [constructor|]. now apply insert_by_sorted.
Qed.

(** Stability: elements with equal keys keep their order. *)
Lemma insert_by_filter k x l :
  filter (fun a => key a =? k) (insert_by key x l) =
  filter (fun a => key a =? k) (x :: l).
Proof.
  induction l as [|y l IH]; [reflexivity|].
  cbn [insert_by].
  destruct (Z.leb_spec (key x) (key y)) as [Hxy|Hxy]; [reflexivity|].
  cbn [filter]. rewrite IH. cbn [filter].
  destruct (Z.eqb_spec (key y) k), (Z.eqb_spec (key x) k); try reflexivity. lia.
Qed.

Lemma sorted_stable k l :
  filter (fun a => key a =? k) (sorted key l) = filter (fun a => key a =? k) l.
Proof.
  induction l as [|x l IH]; [reflexivity|].
  cbn [sorted fold_right]. rewrite insert_by_filter. cbn [filter].
  fold (sorted key l). now rewrite IH.
Qed.

Lemma sorted_map {B} (f : A -> B) (keyB : B -> Z) l :
  (forall a, keyB (f a) = key a) ->
  map f (sorted key l) = sorted keyB (map f l).
Proof.
  intros H. induction l as [|x l IH]; [reflexivity|].
  cbn [sorted fold_right map]. fold (sorted key l).
  fold (sorted keyB (map f l)).
  rewrite <- IH. generalize (sorted key l). intros m.
  induction m as [|y m IHm]; [reflexivity|].
  cbn [insert_by map]. rewrite !H. destruct (key x <=? key y); [reflexivity|].
  cbn [map]. now rewrite IHm.
Qed.
End SortFacts.


(** ** Integers inside labels *)

Lemma alpha_not_number c :
  is_alpha c = true ->
  is_digit c = false /\ Ascii.eqb c minus_sign = false /\
  is_space c = false.
Proof.
  destruct c as [[] [] [] [] [] [] [] []]; try discriminate; intros _;
    repeat split.
Qed.

Lemma search_int_skip_letters name s :
  all_chars is_alpha name = true -> search_int (name ++ s) = search_int s.
Proof.
  induction name as [|c name IH]; [reflexivity|]. cbn [all_chars append].
  intros H. apply andb_true_iff in H as [Hc Hn].
  destruct (alpha_not_number c Hc) as (Hd & Hm & _).
  cbn [search_int]. now rewrite Hd, Hm, IH.
Qed.

Lemma search_int_prefix g rest :
  is_signed_int g = true -> starts_with is_digit rest = false ->
  search_int (g ++ rest) = Some g.
Proof.
  unfold is_signed_int. destruct g as [|c ds]; [discriminate|].
  cbn [append search_int]. intros H Hr.
  destruct (Ascii.eqb_spec c minus_sign) as [->|Hm].
  - apply andb_true_iff in H as [Hh Hd].
    replace (is_digit minus_sign) with false by reflexivity.
    destruct ds as [|d ds]; [discriminate|]. cbn in Hh. cbn [append].
    rewrite Hh. change (String d (ds ++ rest)) with (String d ds ++ rest).
    now rewrite take_while_app.
  - apply andb_true_iff in H as [Hc Hd]. rewrite Hc.
    now rewrite take_while_app.
Qed.

Lemma str_of_int_signed n : is_signed_int (str_of_int n) = true.
Proof.
  destruct (str_of_int_shape n) as (c & s & Hc & Hs & ->).
  destruct (n <? 0); cbn.
  - now rewrite Hc, Hs.
  - destruct (digit_not_others c Hc) as (_ & _ & -> & _). now rewrite Hc, Hs.
Qed.

Lemma first_int_signed g : is_signed_int g = true -> first_int g = int_of_str g.
Proof.
  intros H. unfold first_int. rewrite <- (append_nil_r g) at 1.
  now rewrite search_int_prefix.
Qed.

(** ** Tags and braces *)

Lemma has_brace_cons c s :
  has_brace (String c s) = (Ascii.eqb c brace || has_brace s)%bool.
Proof.
  unfold has_brace. cbn [contains String.prefix].
  destruct (ascii_dec brace c) as [<-|N].
  - rewrite Ascii.eqb_refl. now destruct s.
  - destruct (Ascii.eqb_spec c brace) as [->|_]; [contradiction|reflexivity].
Qed.

Lemma has_brace_app a b : has_brace (a ++ String brace b) = true.
Proof.
  induction a as [|c a IH]; cbn [append]; rewrite has_brace_cons.
  - now rewrite Ascii.eqb_refl.
  - rewrite IH. apply orb_true_r.
Qed.

Lemma after_last_none s : has_brace s = false -> after_last brace s = s.
Proof.
  destruct s as [|c s]; [reflexivity|]. rewrite has_brace_cons.
  intros H. apply orb_false_iff in H as [H1 H2]. cbn [after_last].
  fold (has_brace s). now rewrite H1, H2.
Qed.

Lemma after_last_app a b :
  has_brace b = false -> after_last brace (a ++ String brace b) = b.
Proof.
  intros H. induction a as [|c a IH]; cbn [append after_last].
  - rewrite Ascii.eqb_refl. now apply after_last_none.
  - fold (has_brace (a ++ String brace b)). rewrite has_brace_app.
    now destruct (Ascii.eqb c brace).
Qed.

Lemma after_last_clean s : has_brace (after_last brace s) = false.
Proof.
  induction s as [|c s IH]; [reflexivity|]. cbn [after_last].
  destruct (Ascii.eqb c brace) eqn:E; [exact IH|].
  fold (has_brace s). destruct (has_brace s) eqn:H; [exact IH|].
  now rewrite has_brace_cons, E, H.
Qed.

Lemma lower_char_brace c : Ascii.eqb (lower_char c) brace = Ascii.eqb c brace.
Proof. destruct c as [[] [] [] [] [] [] [] []]; reflexivity. Qed.

Lemma lower_char_idem c : lower_char (lower_char c) = lower_char c.
Proof. destruct c as [[] [] [] [] [] [] [] []]; reflexivity. Qed.

Lemma lower_brace s : has_brace (lower s) = has_brace s.
Proof.
  induction s as [|c s IH]; [reflexivity|]. cbn [lower].
  now rewrite !has_brace_cons, lower_char_brace, IH.
Qed.

Lemma lower_idem s : lower (lower s) = lower s.
Proof.
  induction s as [|c s IH]; [reflexivity|]. cbn [lower].
  now rewrite lower_char_idem, IH.
Qed.

End PyFacts.

(* ================================================================== *)
(** * Properties of [visual.py]                                         *)
(* ================================================================== *)

Module VisualFacts.
Import Json Visual Spec.

Section WithRepr.
Variable repr : json -> string.

Lemma py_or_true a b : truthy a = true -> py_or a b = a.
Proof. unfold py_or. now intros ->. Qed.

Lemma py_or_false a b : truthy a = false -> py_or a b = b.
Proof. unfold py_or. now intros ->. Qed.

(** Decide an [or]-chain of probes by cases on the truth value of each
    probed field, from the first probe on. *)
Ltac probe_cases :=
  repeat match goal with
         | |- context [py_or (get ?d ?k) ?b] =>
             let E := fresh "E" in
             destruct (truthy (get d k)) eqn:E;
             [ rewrite (py_or_true (get d k) b E)
             | rewrite (py_or_false (get d k) b E) ]
         end;
  cbv iota;
  repeat match goal with
         | |- context [if truthy ?a then _ else _] =>
             let E := fresh "E" in destruct (truthy a) eqn:E
         end;
  try discriminate; try (intros [= <-]); auto.

(** The value an [or]-chain of probes ends with is the one under the
    first truthy key. *)
Lemma name_of_first_truthy item k :
  first_truthy name_keys item = Some k ->
  name_of item = get item k /\ truthy (get item k) = true.
Proof.
  unfold first_truthy, name_keys, name_of. cbn [find]. probe_cases.
Qed.

Lemma num_of_first_truthy item k :
  first_truthy num_keys item = Some k ->
  num_of item = get item k /\ truthy (get item k) = true.
Proof.
  unfold first_truthy, num_keys, num_of. cbn [find]. probe_cases.
Qed.

Lemma name_of_no_truthy item :
  first_truthy name_keys item = None -> truthy (name_of item) = false.
Proof.
  unfold first_truthy, name_keys, name_of. cbn [find]. probe_cases.
Qed.

Lemma num_of_no_truthy item :
  first_truthy num_keys item = None -> truthy (num_of item) = false.
Proof.
  unfold first_truthy, num_keys, num_of. cbn [find]. probe_cases.
Qed.

(** The number part the label prints is the one the vocabulary names. *)
Lemma num_text_number_text v : num_text repr v = number_text repr v.
Proof.
  unfold num_text, number_text. destruct v; try reflexivity.
  cbn [py_str]. now rewrite PyFacts.first_int_str_of_int.
Qed.

(** A record whose name is not [None] is labelled from its own fields. *)
Lemma dict_label_named item :
  is_none (name_of item) = false ->
  dict_label repr item =
    py_str repr (py_or (name_of item) (JStr "UNK")) ++
    num_text repr (py_or (num_of item) (JStr "?")) ++
    chain_suffix repr item.
Proof.
  intros H. unfold dict_label, backfill, chain_suffix. rewrite H. cbn [andb].
  destruct (truthy (chain_of item)); [reflexivity|].
  now rewrite PyFacts.append_nil_r.
Qed.

(** ** [build_counts] *)

Lemma count_all_tagged normalized :
  count_all repr normalized =
  fold_left (count_tagged repr) (tagged normalized) ([], 0).
Proof.
  unfold count_all. generalize (@nil (string * row), 0).
  induction normalized as [|[c items] rest IH]; intros st; [reflexivity|].
  cbn [fold_left tagged flat_map fst snd]. rewrite fold_left_app, IH. f_equal.
  clear. revert st.
  induction items as [|it items IH]; intros st; [reflexivity|].
  cbn [fold_left map]. now rewrite IH.
Qed.

Lemma incr_keys label c counts :
  map fst (incr label c counts) = add_new (map fst counts) label.
Proof.
  unfold add_new. induction counts as [|[l r] rest IH]; [reflexivity|].
  cbn [incr map fst existsb]. rewrite (String.eqb_sym label l).
  destruct (String.eqb l label); [reflexivity|]. cbn [orb map fst].
  rewrite IH. now destruct (existsb (String.eqb label) (map fst rest)).
Qed.

Lemma cell_bump c c' r :
  cell c (bump c' r) = cell c r + (if category_eqb c' c then 1 else 0).
Proof. destruct c, c'; cbn; lia. Qed.

Lemma column_total_cons c l r t :
  column_total c ((l, r) :: t) = cell c r + column_total c t.
Proof. reflexivity. Qed.

Lemma table_total_cons l r t :
  table_total ((l, r) :: t) = row_total r + table_total t.
Proof. reflexivity. Qed.

Lemma incr_column label c c' counts :
  column_total c (incr label c' counts) =
  column_total c counts + (if category_eqb c' c then 1 else 0).
Proof.
  induction counts as [|[l r] rest IH].
  - destruct c, c'; cbn; lia.
  - cbn [incr]. destruct (String.eqb l label); rewrite !column_total_cons.
    + rewrite cell_bump. lia.
    + rewrite IH. lia.
Qed.

Lemma table_total_columns t :
  table_total t = column_total HBonds t + column_total Hydrophobic t +
                  column_total Ionic t + column_total WaterBridges t.
Proof.
  induction t as [|[l r] t IH]; [reflexivity|].
  rewrite table_total_cons, !column_total_cons, IH.
  unfold row_total. cbn [cell]. lia.
Qed.

Lemma bump_nonneg c r : row_nonneg r -> row_nonneg (bump c r).
Proof. unfold row_nonneg. destruct c; cbn; lia. Qed.

Lemma incr_nonneg label c counts :
  Forall (fun e => row_nonneg (snd e)) counts ->
  Forall (fun e => row_nonneg (snd e)) (incr label c counts).
Proof.
  induction 1 as [|[l r] rest Hr Hrest IH]; cbn [incr].
  - repeat constructor; cbn; destruct c; cbn; lia.
  - destruct (String.eqb l label); constructor; auto.
    now apply bump_nonneg.
Qed.

Lemma count_tagged_eq st c it :
  count_tagged repr st (c, it) =
  (incr (make_res_label repr it) c (fst st), snd st + 1).
Proof. reflexivity. Qed.

(** What the two loops leave behind, for any starting state. *)
Lemma count_tagged_fold l st :
  let st' := fold_left (count_tagged repr) l st in
  map fst (fst st') =
    fold_left add_new (map (fun ci => make_res_label repr (snd ci)) l)
              (map fst (fst st)) /\
  snd st' = snd st + Z.of_nat (List.length l) /\
  (forall c, column_total c (fst st') =
             column_total c (fst st) +
             Z.of_nat (List.length
                         (filter (fun ci => category_eqb (fst ci) c) l))) /\
  (Forall (fun e => row_nonneg (snd e)) (fst st) ->
   Forall (fun e => row_nonneg (snd e)) (fst st')).
Proof.
  revert st. induction l as [|[c it] l IH]; intros st.
  - cbn. repeat split; auto; intros; lia.
  - cbn [fold_left]. specialize (IH (count_tagged repr st (c, it))).
    cbv zeta in *. destruct IH as (Hk & Ht & Hc & Hn).
    rewrite Hk, Ht. rewrite count_tagged_eq in Hn. cbn [fst snd] in Hn.
    repeat split.
    + rewrite count_tagged_eq. cbn [fst snd map fold_left].
      now rewrite incr_keys.
    + rewrite count_tagged_eq. cbn [fst snd List.length]. lia.
    + intros c'. rewrite Hc, count_tagged_eq. cbn [fst snd filter].
      rewrite incr_column.
      destruct (category_eqb c c'); cbn [List.length]; lia.
    + intros H. apply Hn. now apply incr_nonneg.
Qed.



Lemma build_counts_eq normalized :
  build_counts repr normalized =
  (Py.sorted label_key (fst (count_all repr normalized)),
   snd (count_all repr normalized)).
Proof.
  unfold build_counts.
  destruct (count_all repr normalized) as [[|e counts] total]; reflexivity.
Qed.

Lemma tagged_labels normalized :
  map (fun ci => make_res_label repr (snd ci)) (tagged normalized) =
  map (make_res_label repr) (List.concat (map snd normalized)).
Proof.
  induction normalized as [|[c items] rest IH]; [reflexivity|].
  cbn [tagged flat_map map List.concat fst snd]. rewrite !map_app, map_map.
  cbn [snd]. f_equal. exact IH.
Qed.

Lemma tagged_length normalized :
  List.length (tagged normalized) =
  list_sum (map (fun e => List.length (snd e)) normalized).
Proof.
  induction normalized as [|[c items] rest IH]; [reflexivity|].
  cbn [tagged flat_map map list_sum fold_right fst snd].
  rewrite length_app, length_map. f_equal. exact IH.
Qed.

Lemma tagged_column c normalized :
  Z.of_nat (List.length (filter (fun ci => category_eqb (fst ci) c)
                                (tagged normalized)))
  = items_in c normalized.
Proof.
  induction normalized as [|[c' items] rest IH]; [reflexivity|].
  cbn [tagged flat_map items_in fold_right fst snd].
  rewrite filter_app, length_app, Nat2Z.inj_add. f_equal; [|exact IH].
  destruct (category_eqb c' c) eqn:E.
  - f_equal. induction items as [|it items IHi]; [reflexivity|].
    cbn [map filter fst]. rewrite E. cbn [List.length]. now rewrite IHi.
  - induction items as [|it items IHi]; [reflexivity|].
    cbn [map filter fst]. now rewrite E.
Qed.

Lemma column_total_perm c t t' :
  Permutation t t' -> column_total c t = column_total c t'.
Proof.
  induction 1 as [|[l r] t t' _ IH|[l r] [l' r'] t|t t' t'' _ IH1 _ IH2];
    rewrite ?column_total_cons; lia.
Qed.

Lemma list_sum_perm l l' : Permutation l l' -> list_sum l = list_sum l'.
Proof.
  unfold list_sum. induction 1; cbn [fold_right]; lia.
Qed.

Lemma length_by_category (l : list (category * json)) :
  List.length l =
  (List.length (filter (fun ci => category_eqb (fst ci) HBonds) l) +
   List.length (filter (fun ci => category_eqb (fst ci) Hydrophobic) l) +
   List.length (filter (fun ci => category_eqb (fst ci) Ionic) l) +
   List.length (filter (fun ci => category_eqb (fst ci) WaterBridges) l))%nat.
Proof.
  induction l as [|[[] it] l IH];
    cbn [filter fst category_eqb List.length]; lia.
Qed.

(** The state after the two loops of [build_counts]. *)
Lemma count_all_spec normalized :
  map fst (fst (count_all repr normalized)) = encounter repr normalized /\
  snd (count_all repr normalized) =
    Z.of_nat (List.length (tagged normalized)) /\
  (forall c, column_total c (fst (count_all repr normalized)) =
             items_in c normalized) /\
  Forall (fun e => row_nonneg (snd e)) (fst (count_all repr normalized)).
Proof.
  rewrite count_all_tagged.
  destruct (count_tagged_fold (tagged normalized) ([], 0))
    as (Hk & Ht & Hc & Hn).
  cbv zeta in *. cbn [fst snd map] in *. repeat split.
  - rewrite Hk, tagged_labels. reflexivity.
  - rewrite Ht. lia.
  - intros c. rewrite Hc, tagged_column. reflexivity.
  - apply Hn. constructor.
Qed.

Lemma build_counts_labels normalized :
  map fst (fst (build_counts repr normalized)) =
  Py.sorted sort_key (encounter repr normalized).
Proof.
  rewrite build_counts_eq. cbn [fst].
  rewrite (PyFacts.sorted_map label_key fst sort_key) by reflexivity.
  now destruct (count_all_spec normalized) as (-> & _).
Qed.

Lemma build_counts_total normalized :
  snd (build_counts repr normalized) =
  Z.of_nat (List.length (tagged normalized)).
Proof.
  rewrite build_counts_eq. cbn [snd]. apply count_all_spec.
Qed.

Lemma build_counts_column c normalized :
  column_total c (fst (build_counts repr normalized)) = items_in c normalized.
Proof.
  rewrite build_counts_eq. cbn [fst].
  rewrite (column_total_perm c _ _ (PyFacts.sorted_perm label_key _)).
  apply count_all_spec.
Qed.

Lemma build_counts_nonneg normalized :
  Forall (fun e => row_nonneg (snd e)) (fst (build_counts repr normalized)).
Proof.
  rewrite build_counts_eq. cbn [fst].
  eapply Permutation_Forall; [symmetry; apply PyFacts.sorted_perm|].
  apply count_all_spec.
Qed.

Lemma build_counts_table_total normalized :
  table_total (fst (build_counts repr normalized)) =
  snd (build_counts repr normalized).
Proof.
  rewrite table_total_columns, !build_counts_column, build_counts_total.
  rewrite <- !tagged_column, (length_by_category (tagged normalized)) at 1.
  lia.
Qed.

Lemma as_dict_length order out :
  Permutation all_categories order ->
  List.length (tagged (as_dict order out)) =
  (List.length (b_hbonds out) + List.length (b_hydrophobic out) +
   List.length (b_ionic out) + List.length (b_water out))%nat.
Proof.
  intros H. rewrite tagged_length. unfold as_dict. rewrite map_map. cbn [snd].
  rewrite <- (list_sum_perm _ _ (Permutation_map _ H)). cbn. lia.
Qed.

(** Filtering the labels without an integer goes through the labels of
    key 10^9. *)
Lemma filter_unparseable (l : list string) :
  filter unparseable (filter (fun x => sort_key x =? 10 ^ 9) l) =
  filter unparseable l.
Proof.
  induction l as [|x l IH]; [reflexivity|].
  cbn [filter]. unfold unparseable at 2, sort_key at 1.
  destruct (Py.first_int x) as [n|] eqn:E.
  - destruct (n =? 10 ^ 9); [|exact IH].
    cbn [filter]. unfold unparseable at 1. now rewrite E.
  - rewrite Z.eqb_refl. cbn [filter]. unfold unparseable at 1.
    rewrite E. now rewrite IH.
Qed.

(** In a list in key order, what precedes an element has a key at most
    its own, and what follows a key at least its own. *)
Lemma sorted_split {A : Type} (key : A -> Z) (before after : list A) (x : A) :
  StronglySorted (fun a b => key a <= key b) (before ++ x :: after) ->
  Forall (fun y => key y <= key x) before /\
  Forall (fun y => key x <= key y) after.
Proof.
  induction before as [|b before IH]; cbn [List.app]; intros H.
  - split; [constructor|]. now apply StronglySorted_inv in H as [_ H].
  - apply StronglySorted_inv in H as [Hs Hb].
    destruct (IH Hs) as [H1 H2]. split; [|assumption].
    constructor; [|assumption].
    rewrite Forall_app in Hb. destruct Hb as [_ Hb]. now inversion Hb.
Qed.

(** ** Labels of records without a back-fill *)

Lemma backfill_plain item :
  label_groups item = None ->
  backfill item = (name_of item, num_of item, chain_of item).
Proof.
  unfold label_groups, backfill.
  destruct (is_none (name_of item) && is_str (get item "label"))%bool;
    [|reflexivity].
  destruct (get item "label"); try reflexivity. now intros ->.
Qed.

Lemma name_text_spec item :
  py_str repr (py_or (name_of item) (JStr "UNK")) = label_name repr item.
Proof.
  unfold label_name. destruct (first_truthy name_keys item) as [k|] eqn:E.
  - apply name_of_first_truthy in E as [-> T]. now rewrite py_or_true.
  - apply name_of_no_truthy in E. now rewrite py_or_false.
Qed.

Lemma num_text_spec item :
  num_text repr (py_or (num_of item) (JStr "?")) = label_number repr item.
Proof.
  unfold label_number. destruct (first_truthy num_keys item) as [k|] eqn:E.
  - apply num_of_first_truthy in E as [-> T]. rewrite py_or_true by assumption.
    apply num_text_number_text.
  - apply num_of_no_truthy in E. now rewrite py_or_false.
Qed.

Lemma dict_label_plain item :
  label_groups item = None ->
  dict_label repr item =
  label_name repr item ++ label_number repr item ++ chain_suffix repr item.
Proof.
  intros H. unfold dict_label. rewrite backfill_plain by assumption.
  rewrite <- name_text_spec, <- num_text_spec. unfold chain_suffix.
  destruct (truthy (chain_of item)); [reflexivity|].
  now rewrite PyFacts.append_nil_r.
Qed.
End WithRepr.

(** ** [normalize_json] *)

Lemma bin_extend c c' val out :
  bin c (extend c' val out) =
  (bin c out ++ if category_eqb c' c then val else [])%list.
Proof. destruct c, c'; cbn; now rewrite ?app_nil_r. Qed.

Lemma heuristic_step_bin c out kv :
  bin c (heuristic_step out kv) = (bin c out ++ contribution c kv)%list.
Proof.
  unfold contribution, heuristic_step.
  destruct kv as [k [| | | | |val|]]; cbn [fst snd];
    try (destruct c;
         cbn [bin empty_bins b_hbonds b_hydrophobic b_ionic b_water];
         now rewrite app_nil_r).
  destruct (first_keyword mapping (Py.lower k)) as [c'|];
    [|destruct (type_hint val) as [c'|]];
    rewrite !bin_extend; destruct c; reflexivity.
Qed.

Lemma heuristic_fold_bin c l out :
  bin c (fold_left heuristic_step l out) =
  (bin c out ++ flat_map (contribution c) l)%list.
Proof.
  revert out. induction l as [|kv l IH]; intros out; cbn [fold_left flat_map].
  - now rewrite app_nil_r.
  - now rewrite IH, heuristic_step_bin, app_assoc.
Qed.

Lemma lower_keys_get_lower keys ck k :
  lower_keys_get keys ck = Some k -> Py.lower k = ck.
Proof.
  induction keys as [|k' keys IH]; cbn; [discriminate|].
  destruct (lower_keys_get keys ck) as [k''|]; [intros [= <-]; auto|].
  destruct (String.eqb_spec (Py.lower k') ck);
    [intros [= <-]; auto|discriminate].
Qed.

Lemma lower_keys_get_skip pre k post ck :
  Py.lower k <> ck ->
  lower_keys_get (pre ++ k :: post) ck = lower_keys_get (pre ++ post) ck.
Proof.
  intros H. induction pre as [|k' pre IH]; cbn [List.app lower_keys_get].
  - destruct (lower_keys_get post ck); auto.
    now destruct (String.eqb_spec (Py.lower k) ck).
  - now rewrite IH.
Qed.

Lemma get_skip {V} (pre post : list (string * V)) k v k' :
  k <> k' -> assoc (pre ++ (k, v) :: post) k' = assoc (pre ++ post) k'.
Proof.
  intros H. induction pre as [|[k0 v0] pre IH]; cbn [List.app assoc].
  - now destruct (String.eqb_spec k k').
  - now rewrite IH.
Qed.

Lemma use_canonical_skip pre k v post acc ck :
  Py.lower k <> fst ck ->
  use_canonical (pre ++ (k, v) :: post) acc ck =
  use_canonical (pre ++ post) acc ck.
Proof.
  intros H. unfold use_canonical. destruct acc as [out|]; [|reflexivity].
  rewrite !map_app. cbn [map fst]. rewrite lower_keys_get_skip by assumption.
  destruct (lower_keys_get (map fst pre ++ map fst post) (fst ck))
    as [k'|] eqn:E; [|reflexivity].
  apply lower_keys_get_lower in E. unfold get. rewrite get_skip; [reflexivity|].
  intros ->. contradiction.
Qed.

Lemma unclassified_not_canonical k :
  first_keyword mapping (Py.lower k) = None ->
  Forall (fun ck => Py.lower k <> fst ck) canonical_keys.
Proof.
  intros H. unfold canonical_keys.
  repeat (apply Forall_cons;
          [cbn [fst]; intros E; rewrite E in H; discriminate H|]).
  apply Forall_nil.
Qed.

Lemma canonical_pass_skip pre k v post :
  first_keyword mapping (Py.lower k) = None ->
  canonical_pass (pre ++ (k, v) :: post) = canonical_pass (pre ++ post).
Proof.
  intros H. apply unclassified_not_canonical in H. unfold canonical_pass.
  generalize (Some empty_bins). revert H.
  induction canonical_keys as [|ck cks IH]; intros H acc; [reflexivity|].
  inversion H; subst. cbn [fold_left].
  rewrite use_canonical_skip by assumption. now apply IH.
Qed.

Lemma normalize_json_bin plip_json out c :
  normalize_json plip_json = Some out ->
  exists out1, canonical_pass plip_json = Some out1 /\
    bin c out = (bin c out1 ++ flat_map (contribution c) plip_json)%list.
Proof.
  unfold normalize_json. fold (canonical_pass plip_json).
  destruct (canonical_pass plip_json) as [out1|]; [|discriminate].
  intros [= <-]. exists out1. split; auto. apply heuristic_fold_bin.
Qed.

Lemma normalize_json_of_pass plip_json out1 :
  canonical_pass plip_json = Some out1 ->
  normalize_json plip_json = Some (fold_left heuristic_step plip_json out1).
Proof.
  unfold normalize_json. fold (canonical_pass plip_json). now intros ->.
Qed.

Lemma contribution_fallback c k val :
  first_keyword mapping (Py.lower k) = None -> type_hint val = None ->
  contribution c (k, JList val) =
  if category_eqb c Hydrophobic then val else [].
Proof.
  intros H1 H2. unfold contribution, heuristic_step. cbn [fst snd].
  rewrite H1, H2. now destruct c.
Qed.

Lemma items_in_as_dict c order out :
  Permutation all_categories order ->
  items_in c (as_dict order out) = Z.of_nat (List.length (bin c out)).
Proof.
  intros H.
  assert (E : forall n, items_in c n =
            Z.of_nat (list_sum
                        (map (fun e => if category_eqb (fst e) c
                                       then List.length (snd e)
                                       else 0%nat) n))).
  { induction n as [|e n IH]; [reflexivity|].
    cbn [items_in fold_right map list_sum]. fold (items_in c n). rewrite IH.
    unfold list_sum. destruct (category_eqb (fst e) c); lia. }
  rewrite E. unfold as_dict. rewrite map_map. cbn [fst snd].
  rewrite <- (list_sum_perm _ _ (Permutation_map _ H)).
  destruct c; cbn; f_equal; lia.
Qed.

(** ** The rows of the table *)

Section TableFacts.
Variable repr : json -> string.

Lemma row_ext r r' : (forall c, cell c r = cell c r') -> r = r'.
Proof.
  intros H. destruct r, r'. pose proof (H HBonds). pose proof (H Hydrophobic).
  pose proof (H Ionic). pose proof (H WaterBridges). cbn in *. congruence.
Qed.

Lemma add_new_in seen x y : In y (add_new seen x) <-> In y seen \/ y = x.
Proof.
  unfold add_new. destruct (existsb (String.eqb x) seen) eqn:E.
  - split; auto. intros [H|E']; auto. subst y.
    apply existsb_exists in E as (z & Hz & Ez). apply String.eqb_eq in Ez.
    now subst.
  - rewrite in_app_iff. cbn. intuition.
Qed.

Lemma add_new_nodup seen x : NoDup seen -> NoDup (add_new seen x).
Proof.
  intros H. unfold add_new. destruct (existsb (String.eqb x) seen) eqn:E; auto.
  apply NoDup_app; auto.
  - repeat constructor. intros [].
  - intros y Hy [E'|[]]. subst y.
    assert (existsb (String.eqb x) seen = true); [|congruence].
    apply existsb_exists. exists x. split; auto. apply String.eqb_refl.
Qed.

Lemma fold_add_new l seen :
  NoDup seen ->
  NoDup (fold_left add_new l seen) /\
  forall y, In y (fold_left add_new l seen) <-> In y seen \/ In y l.
Proof.
  revert seen. induction l as [|x l IH]; intros seen H; cbn [fold_left].
  - split; auto. intros y. cbn. intuition.
  - destruct (IH (add_new seen x) (add_new_nodup _ _ H)) as [H1 H2].
    split; auto. intros y. rewrite H2, add_new_in. cbn. intuition.
Qed.

Lemma encounter_nodup normalized : NoDup (encounter repr normalized).
Proof. apply fold_add_new. constructor. Qed.

Lemma encounter_in normalized y :
  In y (encounter repr normalized) <->
  In y (map (fun ci => make_res_label repr (snd ci)) (tagged normalized)).
Proof.
  unfold encounter, first_occurrences.
  rewrite (proj2 (fold_add_new _ [] (NoDup_nil _))).
  rewrite tagged_labels. cbn. intuition.
Qed.

Lemma row_of_incr c lbl l' c' counts :
  cell c (row_of (incr l' c' counts) lbl) =
  cell c (row_of counts lbl) +
  (if (category_eqb c' c && String.eqb l' lbl)%bool then 1 else 0).
Proof.
  unfold row_of. induction counts as [|[l r] rest IH]; cbn [incr assoc].
  - destruct (String.eqb l' lbl); [|destruct c, c'; reflexivity].
    rewrite cell_bump, andb_true_r. reflexivity.
  - destruct (String.eqb_spec l l') as [->|Hl]; cbn [assoc].
    + destruct (String.eqb l' lbl).
      * rewrite cell_bump, andb_true_r. reflexivity.
      * rewrite andb_false_r. lia.
    + destruct (String.eqb_spec l lbl) as [->|Hl'].
      * destruct (String.eqb_spec l' lbl) as [->|_]; [contradiction|].
        rewrite andb_false_r. lia.
      * exact IH.
Qed.

Lemma row_of_fold c lbl l st :
  cell c (row_of (fst (fold_left (count_tagged repr) l st)) lbl) =
  cell c (row_of (fst st) lbl) +
  Z.of_nat
    (List.length
       (filter (fun ci =>
                  (category_eqb (fst ci) c &&
                   String.eqb (make_res_label repr (snd ci)) lbl)%bool) l)).
Proof.
  revert st. induction l as [|[c' it] l IH]; intros st; cbn [fold_left filter].
  - cbn. lia.
  - rewrite IH, count_tagged_eq. cbn [fst snd]. rewrite row_of_incr.
    destruct (category_eqb c' c &&
              String.eqb (make_res_label repr it) lbl)%bool;
      cbn [List.length]; lia.
Qed.

Lemma count_all_row c lbl normalized :
  cell c (row_of (fst (count_all repr normalized)) lbl) =
  label_count repr c lbl normalized.
Proof.
  rewrite count_all_tagged, row_of_fold. unfold label_count.
  now destruct c.
Qed.

Lemma assoc_in {V} (t : list (string * V)) k v :
  assoc t k = Some v -> In (k, v) t.
Proof.
  induction t as [|[k' v'] t IH]; cbn [assoc]; [discriminate|].
  destruct (String.eqb_spec k' k) as [->|_].
  - intros [= ->]. now left.
  - intros H. right. auto.
Qed.

Lemma in_assoc {V} (t : list (string * V)) k v :
  NoDup (map fst t) -> In (k, v) t -> assoc t k = Some v.
Proof.
  induction t as [|[k' v'] t IH]; cbn [assoc map fst]; [intros _ []|].
  intros H [E|H']; inversion H; subst.
  - injection E as -> ->. now rewrite String.eqb_refl.
  - destruct (String.eqb_spec k' k) as [->|_]; auto.
    exfalso. apply H2. apply in_map_iff. exists (k, v). auto.
Qed.

Lemma assoc_none {V} (t : list (string * V)) k :
  assoc t k = None <-> ~ In k (map fst t).
Proof.
  induction t as [|[k' v'] t IH]; cbn [assoc map fst].
  - split; auto.
  - destruct (String.eqb_spec k' k) as [->|N].
    + split; [discriminate|]. intros H. exfalso. apply H. now left.
    + rewrite IH. cbn. intuition.
Qed.

Lemma count_all_keys_nodup normalized :
  NoDup (map fst (fst (count_all repr normalized))).
Proof.
  destruct (count_all_spec repr normalized) as (-> & _).
  apply encounter_nodup.
Qed.

Lemma build_counts_in normalized lbl r :
  In (lbl, r) (fst (build_counts repr normalized)) <->
  In (lbl, r) (fst (count_all repr normalized)).
Proof.
  rewrite build_counts_eq. cbn [fst].
  split; apply Permutation_in; [|symmetry]; apply PyFacts.sorted_perm.
Qed.

Lemma label_count_pos c lbl normalized :
  0 <= label_count repr c lbl normalized.
Proof. unfold label_count. lia. Qed.

(** The rows of the table: the labels met, each with its counts. *)
Lemma build_counts_rows normalized lbl r :
  In (lbl, r) (fst (build_counts repr normalized)) <->
  In lbl (map (make_res_label repr) (List.concat (map snd normalized))) /\
  forall c, cell c r = label_count repr c lbl normalized.
Proof.
  rewrite build_counts_in. rewrite <- tagged_labels, <- encounter_in.
  destruct (count_all_spec repr normalized) as (Hk & _).
  split.
  - intros H. split.
    + rewrite <- Hk. apply in_map_iff. exists (lbl, r). auto.
    + intros c. rewrite <- count_all_row. unfold row_of.
      now rewrite (in_assoc _ _ _ (count_all_keys_nodup normalized) H).
  - intros [Hl Hc]. rewrite <- Hk in Hl.
    destruct (assoc (fst (count_all repr normalized)) lbl) as [r'|] eqn:E.
    + apply assoc_in in E as E'. replace r with r'; auto.
      apply row_ext. intros c. rewrite Hc, <- count_all_row. unfold row_of.
      now rewrite E.
    + apply assoc_none in E. contradiction.
Qed.

Lemma build_counts_keys_nodup normalized :
  NoDup (map fst (fst (build_counts repr normalized))).
Proof.
  rewrite build_counts_labels.
  eapply Permutation_NoDup; [symmetry; apply PyFacts.sorted_perm|].
  apply encounter_nodup.
Qed.

Lemma tagged_perm n n' : Permutation n n' -> Permutation (tagged n) (tagged n').
Proof. apply Permutation_flat_map. Qed.

Lemma label_count_perm c lbl n n' :
  Permutation n n' -> label_count repr c lbl n = label_count repr c lbl n'.
Proof.
  intros H. unfold label_count. f_equal. apply Permutation_length.
  generalize (tagged_perm _ _ H). generalize (tagged n), (tagged n').
  induction 1 as [|x l l' _ IH|x y l|l l' l'' _ IH1 _ IH2]; cbn [filter].
  - constructor.
  - destruct (_ && _)%bool; auto.
  - repeat destruct (_ && _)%bool; auto. apply perm_swap.
  - etransitivity; eassumption.
Qed.

Lemma tagged_nil n : tagged n = [] <-> Forall (fun e => snd e = []) n.
Proof.
  induction n as [|[c items] n IH]; cbn [tagged flat_map fst snd].
  - split; auto.
  - fold (tagged n). split.
    + intros H. apply app_eq_nil in H as [H1 H2]. constructor.
      * cbn. now destruct items.
      * now apply IH.
    + intros H. inversion H; subst. cbn in H2. subst items. cbn. now apply IH.
Qed.

End TableFacts.

(** ** Errors and conservation in [normalize_json] *)

Lemma canonical_fold_none d l acc :
  fold_left (use_canonical d) l acc = None <->
  acc = None \/
  exists ck v,
    In ck l /\ canonical_value d (fst ck) = Some v /\ iterable v = false.
Proof.
  revert acc. induction l as [|ck l IH]; intros acc; cbn [fold_left].
  - split; auto. intros [H|(ck & v & [] & _)]; auto.
  - rewrite IH. unfold use_canonical at 1, canonical_value, iterable.
    destruct acc as [out|].
    + destruct (lower_keys_get (map fst d) (fst ck)) as [k|] eqn:E;
        cbn [option_map].
      * destruct (iterate (get d k)) as [items|] eqn:I.
        -- split.
           ++ intros [H|(ck' & v & H1 & H2 & H3)]; [discriminate|].
              right. exists ck', v. cbn. auto.
           ++ intros [H|(ck' & v & [<-|H1] & H2 & H3)]; [discriminate| |].
              ** rewrite E in H2. cbn in H2. injection H2 as <-.
                 now rewrite I in H3.
              ** right. exists ck', v. auto.
        -- split; [intros _|auto]. right. exists ck, (get d k). rewrite E. cbn.
           rewrite I. auto.
      * split.
        -- intros [H|(ck' & v & H1 & H2 & H3)]; [discriminate|].
           right. exists ck', v. cbn. auto.
        -- intros [H|(ck' & v & [<-|H1] & H2 & H3)]; [discriminate| |].
           ** rewrite E in H2. discriminate.
           ** right. exists ck', v. auto.
    + split; auto.
Qed.

Lemma mem_false x l : Py.mem x l = false -> Forall (fun y => x <> y) l.
Proof.
  unfold Py.mem. induction l as [|y l IH]; cbn [existsb]; [constructor|].
  intros H. apply orb_false_iff in H as [H1 H2]. constructor; auto.
  now apply String.eqb_neq.
Qed.

Lemma canonical_pass_skip_key pre k v post :
  Py.mem (Py.lower k) canonical_names = false ->
  canonical_pass (pre ++ (k, v) :: post) = canonical_pass (pre ++ post).
Proof.
  intros H. apply mem_false in H. unfold canonical_names in H.
  unfold canonical_pass. generalize (Some empty_bins). revert H.
  induction canonical_keys as [|ck cks IH]; intros H acc; [reflexivity|].
  cbn [map] in H. inversion H; subst. cbn [fold_left].
  rewrite use_canonical_skip by assumption. now apply IH.
Qed.

Lemma lower_keys_get_free keys ck :
  forallb (fun k => negb (String.eqb (Py.lower k) ck)) keys = true ->
  lower_keys_get keys ck = None.
Proof.
  induction keys as [|k keys IH]; [reflexivity|]. cbn [forallb lower_keys_get].
  intros H. apply andb_true_iff in H as [H1 H2]. rewrite IH by assumption.
  apply negb_true_iff in H1. now rewrite H1.
Qed.

Lemma canonical_free_pass d :
  canonical_free d = true -> canonical_pass d = Some empty_bins.
Proof.
  intros H. unfold canonical_free in H.
  assert (F : forall ck, In ck canonical_names ->
                         lower_keys_get (map fst d) ck = None).
  { intros ck Hck. apply lower_keys_get_free.
    rewrite forallb_forall in *. intros k Hk. specialize (H k Hk).
    apply negb_true_iff in H. apply negb_true_iff.
    apply mem_false in H. rewrite Forall_forall in H.
    apply String.eqb_neq. now apply H. }
  unfold canonical_pass, canonical_keys, use_canonical. cbn [fold_left fst].
  rewrite !F by (cbn; auto 6). reflexivity.
Qed.

Lemma contributions_of_entry kv :
  Permutation
    (contribution HBonds kv ++ contribution Hydrophobic kv ++
     contribution Ionic kv ++ contribution WaterBridges kv)
    (match snd kv with JList l => l | _ => [] end).
Proof.
  unfold contribution, heuristic_step. destruct (snd kv) as [| | | | |val|];
    try reflexivity.
  destruct (first_keyword mapping (Py.lower (fst kv))) as [[]|];
    [| | | |destruct (type_hint val) as [[]|]];
    cbn [bin extend empty_bins b_hbonds b_hydrophobic b_ionic b_water List.app];
    now rewrite ?app_nil_r.
Qed.

Lemma interleave {A} (a1 a2 a3 a4 f1 f2 f3 f4 : list A) :
  Permutation ((a1 ++ f1) ++ (a2 ++ f2) ++ (a3 ++ f3) ++ (a4 ++ f4))
              ((a1 ++ a2 ++ a3 ++ a4) ++ (f1 ++ f2 ++ f3 ++ f4)).
Proof.
  rewrite <- !app_assoc. apply Permutation_app_head.
  rewrite (Permutation_app_swap_app f1 a2). apply Permutation_app_head.
  rewrite (app_assoc f1 f2), (Permutation_app_swap_app (f1 ++ f2) a3).
  apply Permutation_app_head.
  rewrite (app_assoc (f1 ++ f2) f3).
  rewrite (Permutation_app_swap_app ((f1 ++ f2) ++ f3) a4).
  apply Permutation_app_head. now rewrite <- !app_assoc.
Qed.

Lemma contributions_all d :
  Permutation
    (flat_map (contribution HBonds) d ++
     flat_map (contribution Hydrophobic) d ++
     flat_map (contribution Ionic) d ++
     flat_map (contribution WaterBridges) d)
    (list_items d).
Proof.
  induction d as [|kv d IH]; [reflexivity|]. cbn [flat_map list_items].
  fold (list_items d). rewrite interleave.
  apply Permutation_app; [apply contributions_of_entry | exact IH].
Qed.

(** ** The labels of the specification's examples *)

Example label_of_record :
  make_res_label (fun _ => "")
    (JDict [("resname", JStr "GLU"); ("resnr", JInt 40)]) = "GLU40".
Proof. reflexivity. Qed.

Example label_of_synonyms :
  make_res_label (fun _ => "")
    (JDict [("residue", JStr "GLU"); ("residue_number", JInt 40)]) = "GLU40".
Proof. reflexivity. Qed.

Example label_of_string_with_chain :
  make_res_label (fun _ => "") (JStr "GLU40A") = "GLU40_A".
Proof. reflexivity. Qed.

Example label_of_string_with_blank :
  make_res_label (fun _ => "") (JStr "GLU 40") = "GLU40".
Proof. reflexivity. Qed.

Example label_takes_first_integer :
  make_res_label (fun _ => "")
    (JDict [("resname", JStr "GLU"); ("resnr", JStr "A123B")]) = "GLU123".
Proof. reflexivity. Qed.

Example label_from_text_field :
  make_res_label (fun _ => "")
    (JDict [("label", JStr "ASP-7 c"); ("chain", JStr "B")]) = "ASP-7_c".
Proof. reflexivity. Qed.

End VisualFacts.

(* ================================================================== *)
(** * Properties of [xmltojson.py]                                      *)
(* ================================================================== *)

Module XmlFacts.
Import Json XmlToJson Spec.

Lemma visit_unclassified out e : candidate e = None -> visit out e = out.
Proof. unfold visit. now intros ->. Qed.

Lemma walk_unclassified l out :
  Forall (fun e => candidate e = None) l -> fold_left visit l out = out.
Proof.
  induction 1 as [|e l He _ IH]; [reflexivity|].
  cbn [fold_left]. now rewrite visit_unclassified.
Qed.

(** ** Traversal and collection *)

Lemma element_induction (P : element -> Prop) :
  (forall t a x cs, Forall P cs -> P (Element t a x cs)) ->
  forall e, P e.
Proof.
  intros H. fix IH 1. intros [t a x cs]. apply H.
  induction cs as [|c cs IHcs]; constructor; [apply IH | exact IHcs].
Qed.

Lemma iter_eq e : iter e = e :: flat_map iter (children e).
Proof. now destruct e. Qed.

(** The traversal of a descendant is a contiguous part of the traversal. *)
Lemma iter_split e x :
  In x (iter e) -> exists l1 l2, iter e = (l1 ++ iter x ++ l2)%list.
Proof.
  induction e as [t a tx cs IH] using element_induction.
  rewrite iter_eq. cbn [children]. intros [<-|Hx].
  - exists [], []. rewrite app_nil_r. cbn [List.app]. now rewrite iter_eq.
  - apply in_flat_map in Hx as (c & Hc & Hx).
    rewrite Forall_forall in IH. destruct (IH c Hc Hx) as (l1 & l2 & E).
    apply in_split in Hc as (cs1 & cs2 & ->).
    rewrite flat_map_app. cbn [flat_map]. rewrite E.
    exists (Element t a tx (cs1 ++ c :: cs2) :: flat_map iter cs1 ++ l1)%list,
           (l2 ++ flat_map iter cs2)%list.
    cbn [List.app]. f_equal. now rewrite <- !app_assoc.
Qed.

Lemma iter_trans e x y : In x (iter e) -> In y (iter x) -> In y (iter e).
Proof.
  intros Hx Hy. destruct (iter_split e x Hx) as (l1 & l2 & ->).
  apply in_or_app. right. apply in_or_app. now left.
Qed.

Lemma collect_step_fold l acc found :
  fold_left collect_step l (acc, found) =
  let found_here :=
    flat_map (fun d => if residue_like d then own_info d else []) l in
  ((acc ++ found_here)%list,
   (found || match found_here with [] => false | _ => true end)%bool).
Proof.
  cbv zeta. revert acc found.
  induction l as [|d l IH]; intros acc found; cbn [fold_left flat_map].
  - now rewrite app_nil_r, orb_false_r.
  - unfold collect_step at 2, own_info. destruct (residue_like d).
    + destruct (find_residue_info d) as [ri|]; cbn [fst List.app].
      * rewrite IH, <- app_assoc. cbn [List.app]. now rewrite orb_true_r.
      * now rewrite IH.
    + now rewrite IH.
Qed.

Lemma collect_spec e acc : collect e acc = (acc ++ gathered e)%list.
Proof.
  unfold collect, gathered, harvest. rewrite collect_step_fold. cbn [orb].
  destruct (flat_map _ (iter e)) as [|ri l]; [|reflexivity].
  rewrite app_nil_r. unfold own_info. destruct (find_residue_info e); auto.
  now rewrite app_nil_r.
Qed.

Lemma bin_set_bin c c' l out :
  bin c (set_bin c' l out) = if category_eqb c' c then l else bin c out.
Proof. now destruct c, c'. Qed.

Lemma visit_bin c out e : bin c (visit out e) = (bin c out ++ emitted c e)%list.
Proof.
  unfold visit, emitted.
  destruct (candidate e) as [c'|]; [|now rewrite app_nil_r].
  rewrite bin_set_bin, collect_spec.
  destruct c, c'; cbn [category_eqb]; auto using app_nil_r;
    now rewrite app_nil_r.
Qed.

Lemma visit_fold_bin c l out :
  bin c (fold_left visit l out) = (bin c out ++ flat_map (emitted c) l)%list.
Proof.
  revert out. induction l as [|e l IH]; intros out; cbn [fold_left flat_map].
  - now rewrite app_nil_r.
  - now rewrite IH, visit_bin, app_assoc.
Qed.

(** Every classified element adds what its own traversal gathers. *)
Lemma walk_and_collect_bin c root :
  bin c (walk_and_collect root) = flat_map (emitted c) (iter root).
Proof.
  unfold walk_and_collect. rewrite visit_fold_bin. now destruct c.
Qed.

Lemma in_gathered e r ri :
  In r (iter e) -> residue_like r = true -> find_residue_info r = Some ri ->
  In ri (gathered e).
Proof.
  intros Hr Hl Hf. assert (H : In ri (harvest e)).
  { unfold harvest. apply in_flat_map. exists r. split; auto.
    rewrite Hl. unfold own_info. rewrite Hf. now left. }
  unfold gathered. now destruct (harvest e).
Qed.

Lemma in_emitted c e r ri :
  candidate e = Some c ->
  In r (iter e) -> residue_like r = true -> find_residue_info r = Some ri ->
  In ri (emitted c e).
Proof.
  intros Hc Hr Hl Hf. unfold emitted. rewrite Hc.
  replace (category_eqb c c) with true by now destruct c.
  eapply in_gathered; eassumption.
Qed.

Lemma iter_children_split outer inner :
  In inner (flat_map iter (children outer)) ->
  exists l1 l2, iter outer = (outer :: l1 ++ iter inner ++ l2)%list.
Proof.
  intros Hi. apply in_flat_map in Hi as (ch & Hch & Hi).
  destruct (iter_split ch inner Hi) as (a & b & E).
  apply in_split in Hch as (cs1 & cs2 & Ecs).
  exists (flat_map iter cs1 ++ a)%list, (b ++ flat_map iter cs2)%list.
  rewrite iter_eq, Ecs, flat_map_app. cbn [flat_map]. rewrite E.
  f_equal. now rewrite <- !app_assoc.
Qed.

Lemma flat_map_twice {A B} (f : A -> list B) a l1 m l2 b x y (v : B) :
  In v (f x) -> In v (f y) ->
  exists p q r,
    flat_map f (a ++ (x :: l1 ++ (y :: m) ++ l2) ++ b) =
    (p ++ v :: q ++ v :: r)%list.
Proof.
  intros Hx Hy.
  apply in_split in Hx as (p1 & q1 & Ex).
  apply in_split in Hy as (p2 & q2 & Ey).
  exists (flat_map f a ++ p1)%list, (q1 ++ flat_map f l1 ++ p2)%list,
         (q2 ++ flat_map f m ++ flat_map f l2 ++ flat_map f b)%list.
  rewrite !flat_map_app. cbn [flat_map].
  rewrite !flat_map_app. cbn [flat_map]. rewrite Ex, Ey.
  repeat (rewrite <- app_assoc; cbn [List.app]). reflexivity.
Qed.

Lemma visit_classified c out e :
  candidate e = Some c ->
  visit out e = set_bin c (bin c out ++ gathered e)%list out.
Proof. unfold visit. intros ->. now rewrite collect_spec. Qed.

(** ** Elements without a name and a number *)

Lemma or_s_falsy a b : truthy_s a = false -> or_s a b = b.
Proof. unfold or_s. now intros ->. Qed.

Lemma or_s_truthy_false a b :
  truthy_s a = false -> truthy_s b = false -> truthy_s (or_s a b) = false.
Proof. intros Ha Hb. now rewrite or_s_falsy. Qed.

Lemma attrib_fields_anonymous a :
  lacks a identity_attrs = true -> anonymous (attrib_fields a) = true.
Proof.
  unfold lacks, identity_attrs. cbn [forallb].
  rewrite !andb_true_iff, !negb_true_iff.
  intros (H1 & H2 & H3 & H4 & H5 & H6 & H7 & H8 & H9 & H10 & H11 & _).
  unfold attrib_fields, anonymous.
  apply andb_true_iff; split; apply negb_true_iff;
    repeat (apply or_s_truthy_false); assumption.
Qed.

Lemma text_step_silent st child :
  truthy_s (stripped_text child) = false -> text_step st child = st.
Proof.
  intros H. destruct st as [[name num] chain]. unfold text_step.
  rewrite H, !andb_false_r. reflexivity.
Qed.

Lemma text_fold_silent cs st :
  forallb silent_child cs = true -> fold_left text_step cs st = st.
Proof.
  revert st. induction cs as [|c cs IH]; intros st; [reflexivity|].
  cbn [forallb fold_left]. rewrite andb_true_iff. intros [Hc Hcs].
  unfold silent_child in Hc. apply andb_true_iff in Hc as [Hc _].
  apply negb_true_iff in Hc. rewrite text_step_silent by assumption. auto.
Qed.

Lemma resid_step_silent st child :
  silent_child child = true -> anonymous st = true ->
  anonymous (resid_step st child) = true.
Proof.
  unfold silent_child, lacks. cbn [forallb].
  rewrite !andb_true_iff, !negb_true_iff.
  intros (_ & H1 & H2 & H3 & H4 & _).
  destruct st as [[name num] chain]. unfold anonymous, resid_step.
  rewrite !andb_true_iff, !negb_true_iff. intros [Hn Hk].
  destruct (resid_child child); [|now rewrite Hn, Hk].
  apply andb_true_iff; split; apply negb_true_iff;
    repeat (apply or_s_truthy_false); assumption.
Qed.

Lemma resid_fold_silent cs st :
  forallb silent_child cs = true -> anonymous st = true ->
  anonymous (fold_left resid_step cs st) = true.
Proof.
  revert st. induction cs as [|c cs IH]; intros st; [auto|].
  cbn [forallb fold_left]. rewrite andb_true_iff. intros [Hc Hcs] Hst.
  apply IH; auto. now apply resid_step_silent.
Qed.

Lemma bare_probe e : bare e = true -> anonymous (probe e) = true.
Proof.
  unfold bare. rewrite andb_true_iff. intros [Ha Hc].
  apply attrib_fields_anonymous in Ha. unfold probe.
  destruct (incomplete (attrib_fields (attrib e))).
  - rewrite text_fold_silent by assumption.
    destruct (incomplete (attrib_fields (attrib e))); auto.
    now apply resid_fold_silent.
  - destruct (incomplete (attrib_fields (attrib e))); auto.
    now apply resid_fold_silent.
Qed.

Lemma anonymous_none e :
  anonymous (probe e) = true -> find_residue_info e = None.
Proof.
  unfold find_residue_info, anonymous. destruct (probe e) as [[name num] chain].
  now intros ->.
Qed.

(** ** What a classified element gathers *)

Lemma in_gathered_iff e ri :
  In ri (gathered e) <->
  (exists r, In r (iter e) /\ residue_like r = true /\
             find_residue_info r = Some ri) \/
  ((forall r, In r (iter e) -> residue_like r = true ->
              find_residue_info r = None) /\
   find_residue_info e = Some ri).
Proof.
  assert (Hh : forall x, In x (harvest e) <->
             exists r, In r (iter e) /\ residue_like r = true /\
                       find_residue_info r = Some x).
  { intros x. unfold harvest. rewrite in_flat_map. split.
    - intros (r & Hr & Hx). exists r. split; auto.
      destruct (residue_like r); [|now destruct Hx]. split; auto.
      unfold own_info in Hx. destruct (find_residue_info r); [|now destruct Hx].
      destruct Hx as [->|[]]. reflexivity.
    - intros (r & Hr & Hl & Hf). exists r. split; auto.
      rewrite Hl. unfold own_info. rewrite Hf. now left. }
  unfold gathered. destruct (harvest e) as [|h hs] eqn:E.
  - split.
    + intros H. right. split.
      * intros r Hr Hl. destruct (find_residue_info r) as [x|] eqn:F; auto.
        exfalso. apply (proj2 (Hh x)). eauto.
      * unfold own_info in H. destruct (find_residue_info e); [|now destruct H].
        destruct H as [->|[]]. reflexivity.
    + intros [(r & Hr & Hl & Hf)|[_ Hf]].
      * exfalso. apply (proj2 (Hh ri)). eauto.
      * unfold own_info. rewrite Hf. now left.
  - split.
    + intros H. left. now apply Hh.
    + intros [H|[Hall _]]; [now apply Hh|]. exfalso.
      destruct (proj1 (Hh h) (or_introl eq_refl)) as (r & Hr & Hl & Hf).
      rewrite (Hall r Hr Hl) in Hf. discriminate.
Qed.

(** ** Two runs of [find_residue_info] *)

Example info_from_children :
  find_residue_info
    (Element "partner" [] None
       [ Element "resname" [] (Some " LYS ") [];
         Element "{ns}resnr" [] (Some "7") [];
         Element "residue" [("name", "X"); ("chain", "B")] None [] ])
  = Some (JDict [("resname", JStr "LYS"); ("resnr", JInt 7);
                 ("chain", JStr "")]).
Proof. reflexivity. Qed.

(** A name without a number: [str(num)] is the text of [None]. *)
Example info_without_number :
  find_residue_info (Element "residue" [("resname", "SER")] None [])
  = Some (JDict [("resname", JStr "SER"); ("resnr", JStr "None");
                 ("chain", JStr "")]).
Proof. reflexivity. Qed.

End XmlFacts.

(* ================================================================== *)
(** * The properties of the specification                               *)
(* ================================================================== *)

Import Json.

(** C1 (as the code behaves). A document whose only key is one of the four
    canonical names, bound to a list, gets the list's items twice in the
    matching category: once from the canonical pass and once more from the
    keyword pass, which does not skip the canonical keys.  The other three
    categories stay empty. *)
Theorem C1_canonical_items_added_twice :
  Forall (fun ck : string * category =>
            forall items : list json,
              exists out,
                Visual.normalize_json [(fst ck, JList items)] = Some out /\
                List.length (bin (snd ck) out) = (2 * List.length items)%nat /\
                forall c,
                  bin c out =
                  if category_eqb c (snd ck) then (items ++ items)%list else [])
         Visual.canonical_keys.
Proof.
  unfold Visual.canonical_keys.
  repeat (apply Forall_cons; [|]); [ | | | | apply Forall_nil ];
    intros items; cbn [fst snd];
    (eexists; split; [reflexivity|]);
    (split;
     [ transitivity (List.length (items ++ items)%list);
       [reflexivity | rewrite length_app; lia]
     | intros []; reflexivity ]).
Qed.

(** C2 (counterexample). The record [{"resname": "GLU", "resnr": "40A"}]
    holds a recognised name key and a recognised number key, yet the
    number of its label is not the stored value: the label is [GLU40].
    Nor is it for [{"resname": "GLU", "resnr": 0}], labelled [GLU?]. *)
Lemma C2_counterexample :
  let item := [("resname", JStr "GLU"); ("resnr", JStr "40A")] in
  let item0 := [("resname", JStr "GLU"); ("resnr", JInt 0)] in
  (get item "resname" = JStr "GLU" /\
   get item "resnr" = JStr "40A" /\
   Visual.make_res_label (fun _ => "") (JDict item) = "GLU40" /\
   Visual.make_res_label (fun _ => "") (JDict item) <> "GLU" ++ "40A") /\
  (get item0 "resname" = JStr "GLU" /\
   get item0 "resnr" = JInt 0 /\
   Visual.make_res_label (fun _ => "") (JDict item0) = "GLU?" /\
   Visual.make_res_label (fun _ => "") (JDict item0)
     <> "GLU" ++ Py.str_of_int 0).
Proof.
  cbv zeta. repeat split; try reflexivity; vm_compute; discriminate.
Qed.

(** C2 (amended). When the first truthy name synonym of a record holds a
    string [name] and the first truthy number synonym holds [v], the label
    is [name], then the number text of [v] (the integer itself when [v] is
    an integer, else the first signed integer of its text), then the chain
    suffix: the same whichever synonym keys hold the two values. *)
Theorem C2_label_from_first_truthy_synonyms
    (repr : json -> string) (item : list (string * json))
    (kn kk name : string) (v : json) :
  Spec.first_truthy Spec.name_keys item = Some kn ->
  get item kn = JStr name ->
  Spec.first_truthy Spec.num_keys item = Some kk ->
  get item kk = v ->
  Visual.make_res_label repr (JDict item) =
    name ++ Spec.number_text repr v ++ Spec.chain_suffix repr item.
Proof.
  intros Hn En Hk Ek.
  apply VisualFacts.name_of_first_truthy in Hn as [Hn Tn].
  apply VisualFacts.num_of_first_truthy in Hk as [Hk Tk].
  cbn [Visual.make_res_label].
  rewrite VisualFacts.dict_label_named by (rewrite Hn, En; reflexivity).
  unfold py_or. rewrite Hn, Hk, Tn, Tk, En, Ek.
  now rewrite VisualFacts.num_text_number_text.
Qed.

Lemma C2_witness :
  Visual.make_res_label (fun _ => "")
    (JDict [("residue", JStr "GLU"); ("residue_number", JInt 40)]) =
  "GLU" ++ Spec.number_text (fun _ => "") (JInt 40) ++
  Spec.chain_suffix (fun _ => "")
    [("residue", JStr "GLU"); ("residue_number", JInt 40)].
Proof.
  apply (C2_label_from_first_truthy_synonyms (fun _ => "")
           [("residue", JStr "GLU"); ("residue_number", JInt 40)]
           "residue" "residue_number" "GLU" (JInt 40));
    reflexivity.
Defined.

(** C3 (counterexample). ["G40A"] is one upper-case letter, a signed
    integer and a letter, yet it is returned as it is, not as [G40_A]. *)
Lemma C3_counterexample :
  Spec.claimed_shape "G40A" "G" "40" "A" /\
  Visual.make_res_label (fun _ => "") (JStr "G40A") = "G40A" /\
  Visual.make_res_label (fun _ => "") (JStr "G40A") <> Spec.render "G" "40" "A".
Proof.
  split; [|split; [reflexivity | vm_compute; discriminate]].
  exists "". repeat split; auto; cbn; try lia. right. exists "A"%char. auto.
Qed.

(** C3 (amended). A plain string that starts with two to four upper-case
    letters, optional white space, a signed integer, optional white space
    and an optional letter is labelled from these three groups, whatever
    follows them; every other string is returned unchanged. *)
Theorem C3_string_label (repr : json -> string) (s : string) :
  (forall name num chain,
      Spec.label_shape s name num chain ->
      Visual.make_res_label repr (JStr s) = Spec.render name num chain) /\
  ((forall name num chain, ~ Spec.label_shape s name num chain) ->
   Visual.make_res_label repr (JStr s) = s).
Proof.
  split.
  - intros name num chain H. apply PyFacts.residue_match_complete in H.
    cbn [Visual.make_res_label Visual.py_str]. rewrite H. unfold Spec.render.
    now destruct (String.eqb chain "").
  - intros H. cbn [Visual.make_res_label Visual.py_str].
    destruct (Py.residue_match s) as [[[a b] c]|] eqn:E; auto.
    apply PyFacts.residue_match_sound in E. now apply H in E.
Qed.

Lemma C3_witness :
  (Spec.label_shape "GLU 40A" "GLU" "40" "A" /\
   Visual.make_res_label (fun _ => "") (JStr "GLU 40A") = "GLU40_A") /\
  ((forall name num chain, ~ Spec.label_shape "water" name num chain) /\
   Visual.make_res_label (fun _ => "") (JStr "water") = "water").
Proof.
  assert (S1 : Spec.label_shape "GLU 40A" "GLU" "40" "A").
  { exists " ", "", "". repeat split; auto; cbn; lia. }
  assert (S2 : forall name num chain,
             ~ Spec.label_shape "water" name num chain).
  { intros name num chain H. apply PyFacts.residue_match_complete in H.
    discriminate H. }
  split; split.
  - exact S1.
  - exact (proj1 (C3_string_label (fun _ => "") "GLU 40A") "GLU" "40" "A" S1).
  - exact S2.
  - exact (proj2 (C3_string_label (fun _ => "") "water") S2).
Defined.

(** C5. For every canonical report, whatever the order of its four keys,
    the total [build_counts] returns is the sum of the lengths of the four
    category lists, every cell of the table is non-negative, and the cells
    add up to that total. *)
Theorem C5_conservation
    (repr : json -> string) (order : list category) (out : bins) :
  Permutation all_categories order ->
  let '(df, total) := Visual.build_counts repr (Visual.as_dict order out) in
  total = Z.of_nat (List.length (b_hbonds out) +
                    List.length (b_hydrophobic out) +
                    List.length (b_ionic out) + List.length (b_water out)) /\
  Forall (fun e => Spec.row_nonneg (snd e)) df /\
  Spec.table_total df = total.
Proof.
  intros H.
  set (normalized := Visual.as_dict order out).
  pose proof (VisualFacts.build_counts_total repr normalized) as Ht.
  pose proof (VisualFacts.build_counts_nonneg repr normalized) as Hn.
  pose proof (VisualFacts.build_counts_table_total repr normalized) as Hs.
  destruct (Visual.build_counts repr normalized) as [df total].
  subst normalized.
  cbn [fst snd] in *. subst total.
  rewrite VisualFacts.as_dict_length in * by assumption. auto.
Qed.

Lemma C5_witness :
  let out := mkBins [JStr "SER12"; JStr "SER12"] [JStr "LEU5"] [] [JDict []] in
  let '(df, total) :=
    Visual.build_counts (fun _ => "") (Visual.as_dict all_categories out) in
  total = 4 /\
  Forall (fun e => Spec.row_nonneg (snd e)) df /\
  Spec.table_total df = total.
Proof.
  exact (C5_conservation (fun _ => "") all_categories
           (mkBins [JStr "SER12"; JStr "SER12"] [JStr "LEU5"] [] [JDict []])
           (Permutation_refl _)).
Defined.

(** C6 (counterexample). The label [foo] holds no integer and
    [ALA2000000000] holds one, yet [foo] comes first: a label without an
    integer is sorted as if its number were 10^9. *)
Lemma C6_counterexample :
  map fst (fst (Visual.build_counts (fun _ => "")
                  [(Hydrophobic,
                    [JStr "foo";
                     JDict [("resname", JStr "ALA");
                            ("resnr", JInt 2000000000)]])]))
  = ["foo"; "ALA2000000000"] /\
  Py.first_int "foo" = None /\
  Py.first_int "ALA2000000000" = Some 2000000000.
Proof. repeat split; vm_compute; reflexivity. Qed.

(** C6 (amended). The rows of the table are the labels met, in ascending
    order of their sort key: the first signed integer of the label, and
    10^9 for a label that holds none.  Labels with the same key keep their
    encounter order; so do the labels without an integer among themselves,
    and no label with a number below 10^9 comes after one of them.  The
    labels LEU5, GLU40, ARG2 come out as ARG2, LEU5, GLU40. *)
Theorem C6_rows_sorted_by_key
    (repr : json -> string) (normalized : list (category * list json)) :
  let labels := map fst (fst (Visual.build_counts repr normalized)) in
  StronglySorted (fun a b => Visual.sort_key a <= Visual.sort_key b) labels /\
  Permutation labels (Spec.encounter repr normalized) /\
  (forall k,
      filter (fun l => Visual.sort_key l =? k) labels =
      filter (fun l => Visual.sort_key l =? k)
             (Spec.encounter repr normalized)) /\
  filter Spec.unparseable labels =
    filter Spec.unparseable (Spec.encounter repr normalized) /\
  (forall before x after,
      labels = (before ++ x :: after)%list ->
      Py.first_int x = None ->
      Forall (fun y => Visual.sort_key y <= 10 ^ 9) before /\
      Forall (fun y => 10 ^ 9 <= Visual.sort_key y) after) /\
  (forall c,
      map fst (fst (Visual.build_counts repr
                      [(c, [JStr "LEU5"; JStr "GLU40"; JStr "ARG2"])]))
      = ["ARG2"; "LEU5"; "GLU40"]).
Proof.
  cbv zeta. rewrite VisualFacts.build_counts_labels.
  set (enc := Spec.encounter repr normalized).
  pose proof (PyFacts.sorted_sorted Visual.sort_key enc) as Hs.
  change (StronglySorted (fun a b => Visual.sort_key a <= Visual.sort_key b)
            (Py.sorted Visual.sort_key enc)) in Hs.
  split; [exact Hs|].
  split; [apply PyFacts.sorted_perm|].
  split; [intros k; apply PyFacts.sorted_stable|].
  split.
  { rewrite <- (VisualFacts.filter_unparseable (Py.sorted Visual.sort_key enc)),
            <- (VisualFacts.filter_unparseable enc).
    now rewrite PyFacts.sorted_stable. }
  split.
  - intros before x after E Hx. rewrite E in Hs.
    apply VisualFacts.sorted_split in Hs as [Hb Ha].
    assert (Kx : Visual.sort_key x = 10 ^ 9)
      by (unfold Visual.sort_key; now rewrite Hx).
    rewrite Kx in Hb, Ha. auto.
  - intros []; vm_compute; reflexivity.
Qed.

Lemma C6_witness :
  Forall (fun y => Visual.sort_key y <= 10 ^ 9) ["ARG2"; "LEU5"] /\
  Forall (fun y => 10 ^ 9 <= Visual.sort_key y) ["bar"].
Proof.
  exact (proj1 (proj2 (proj2 (proj2 (proj2
           (C6_rows_sorted_by_key (fun _ => "")
              [(Ionic, [JStr "foo"; JStr "LEU5"; JStr "bar"; JStr "ARG2"])])))))
           ["ARG2"; "LEU5"] "foo" ["bar"] eq_refl eq_refl).
Defined.

(** C7. A top-level key bound to a list, whose name holds no keyword and
    whose first item gives no matching type hint, has every item of its
    list appended to Hydrophobic: that category, and the Hydrophobic
    column of the table, grow by the length of the list, the other
    categories by nothing.  In the XML normaliser an element that
    classifies neither by tag nor by attribute leaves the output as it is. *)
Theorem C7_unclassified_fallback (repr : json -> string) (order : list category)
    (pre post : list (string * json)) (k : string) (val : list json)
    (out0 : bins) (root : XmlToJson.element) :
  first_keyword Visual.mapping (Py.lower k) = None ->
  Visual.type_hint val = None ->
  Visual.normalize_json (pre ++ post) = Some out0 ->
  Permutation all_categories order ->
  Forall (fun e => XmlToJson.candidate e = None) (XmlToJson.iter root) ->
  (exists out,
      Visual.normalize_json (pre ++ (k, JList val) :: post) = Some out /\
      (forall c,
          List.length (bin c out) =
          (List.length (bin c out0) +
           if category_eqb c Hydrophobic then List.length val else 0)%nat) /\
      incl val (b_hydrophobic out) /\
      (forall c,
          Spec.column_total c
            (fst (Visual.build_counts repr (Visual.as_dict order out))) =
          Spec.column_total c
            (fst (Visual.build_counts repr (Visual.as_dict order out0))) +
          if category_eqb c Hydrophobic
          then Z.of_nat (List.length val) else 0)) /\
  (forall xout e,
      In e (XmlToJson.iter root) -> XmlToJson.visit xout e = xout) /\
  XmlToJson.walk_and_collect root = empty_bins.
Proof.
  intros Hk Hh H0 Hp Hx.
  assert (Hbin : exists out,
             Visual.normalize_json (pre ++ (k, JList val) :: post) = Some out /\
             forall c, exists a b,
                 bin c out0 = (a ++ b)%list /\
                 bin c out =
                 (a ++ (if category_eqb c Hydrophobic then val else [])
                    ++ b)%list).
  { destruct (VisualFacts.normalize_json_bin _ _ HBonds H0) as (out1 & Hp1 & _).
    exists (fold_left Visual.heuristic_step
                      (pre ++ (k, JList val) :: post) out1).
    split.
    { apply VisualFacts.normalize_json_of_pass.
      now rewrite VisualFacts.canonical_pass_skip. }
    intros c.
    destruct (VisualFacts.normalize_json_bin _ _ c H0) as (out1' & Hp1' & E).
    rewrite Hp1 in Hp1'. injection Hp1' as <-.
    exists (bin c out1 ++ flat_map (Spec.contribution c) pre)%list,
           (flat_map (Spec.contribution c) post).
    rewrite E, VisualFacts.heuristic_fold_bin, !flat_map_app. cbn [flat_map].
    rewrite VisualFacts.contribution_fallback by assumption.
    now rewrite !app_assoc. }
  destruct Hbin as (out & Hn & Hb).
  assert (Hlen : forall c,
             List.length (bin c out) =
             (List.length (bin c out0) +
              if category_eqb c Hydrophobic then List.length val else 0)%nat).
  { intros c. destruct (Hb c) as (a & b & -> & ->).
    rewrite !length_app.
    destruct (category_eqb c Hydrophobic); cbn [List.length]; lia. }
  split; [exists out; repeat split; auto|].
  - destruct (Hb Hydrophobic) as (a & b & _ & E). cbn [bin category_eqb] in E.
    rewrite E. intros x Hx'. apply in_or_app. right. apply in_or_app. now left.
  - intros c. rewrite !VisualFacts.build_counts_column.
    rewrite !VisualFacts.items_in_as_dict by assumption.
    rewrite Hlen. destruct (category_eqb c Hydrophobic); lia.
  - split.
    + intros xout e He. apply XmlFacts.visit_unclassified.
      rewrite Forall_forall in Hx. now apply Hx.
    + now apply XmlFacts.walk_unclassified.
Qed.

Lemma C7_witness :
  let pre := [("hbond", JList [JStr "SER12"])] in
  let out0 := mkBins [JStr "SER12"] [] [] [] in
  let root := XmlToJson.Element "report" [] None [] in
  (exists out,
      Visual.normalize_json
        (pre ++ [("unknown_contacts", JList [JStr "LEU5"; JInt 7])])
      = Some out /\
      (forall c,
          List.length (bin c out) =
          (List.length (bin c out0) +
           if category_eqb c Hydrophobic then 2 else 0)%nat) /\
      incl [JStr "LEU5"; JInt 7] (b_hydrophobic out) /\
      (forall c,
          Spec.column_total c
            (fst (Visual.build_counts (fun _ => "")
                    (Visual.as_dict all_categories out))) =
          Spec.column_total c
            (fst (Visual.build_counts (fun _ => "")
                    (Visual.as_dict all_categories out0))) +
          if category_eqb c Hydrophobic then 2 else 0)) /\
  (forall xout e,
      In e (XmlToJson.iter root) -> XmlToJson.visit xout e = xout) /\
  XmlToJson.walk_and_collect root = empty_bins.
Proof.
  exact (C7_unclassified_fallback (fun _ => "") all_categories
           [("hbond", JList [JStr "SER12"])] [] "unknown_contacts"
           [JStr "LEU5"; JInt 7] (mkBins [JStr "SER12"] [] [] [])
           (XmlToJson.Element "report" [] None [])
           eq_refl eq_refl eq_refl (Permutation_refl _)
           (Forall_cons (XmlToJson.Element "report" [] None []) eq_refl
              (Forall_nil _))).
Defined.

(** C4. A report whose root does not classify and holds one hydrogen-bond
    element, itself with the single residue child
    [resname="SER" resnr="12" chain="A"], is converted to the document with
    that residue once under [hydrogen_bonds], its number the integer 12, and
    the three other keys present and empty; so is the hydrogen-bond element
    taken as the root. *)
Theorem C4_single_hydrogen_bond
    (rt ht : string) (ra ha : list (string * string)) (rx hx : option string) :
  let hb := XmlToJson.Element ht ha hx [Spec.ser12] in
  let root := XmlToJson.Element rt ra rx [hb] in
  XmlToJson.candidate root = None ->
  XmlToJson.candidate hb = Some HBonds ->
  XmlToJson.residue_like hb = false ->
  XmlToJson.main root = Spec.ser12_report /\
  XmlToJson.main hb = Spec.ser12_report.
Proof.
  intros hb root Hr Hc Hl.
  assert (Ir : XmlToJson.iter root = [root; hb; Spec.ser12]) by reflexivity.
  assert (Ih : XmlToJson.iter hb = [hb; Spec.ser12]) by reflexivity.
  assert (Hs : XmlToJson.candidate Spec.ser12 = None) by reflexivity.
  assert (Hg : Spec.gathered hb =
               [JDict [("resname", JStr "SER"); ("resnr", JInt 12);
                       ("chain", JStr "A")]]).
  { unfold Spec.gathered, Spec.harvest. rewrite Ih. cbn [flat_map].
    rewrite Hl. reflexivity. }
  unfold XmlToJson.main, XmlToJson.walk_and_collect.
  rewrite Ir, Ih. cbn [fold_left].
  rewrite (XmlFacts.visit_unclassified _ _ Hr),
          (XmlFacts.visit_classified _ _ _ Hc), Hg.
  rewrite (XmlFacts.visit_unclassified _ _ Hs). split; reflexivity.
Qed.

Lemma C4_witness :
  XmlToJson.main
    (XmlToJson.Element "report" [] None
       [XmlToJson.Element "hydrogen_bond" [("id", "1")] None [Spec.ser12]])
  = Spec.ser12_report /\
  XmlToJson.main
    (XmlToJson.Element "hydrogen_bond" [("id", "1")] None [Spec.ser12])
  = Spec.ser12_report.
Proof.
  apply (C4_single_hydrogen_bond "report" "hydrogen_bond" [] [("id", "1")]
           None None); reflexivity.
Defined.

(** C8 (counterexample). An element with a number and no name is accepted
    by [find_residue_info], and its name is left as [None], not ["UNK"]. *)
Lemma C8_counterexample :
  XmlToJson.find_residue_info
    (XmlToJson.Element "residue" [("resnr", "12")] None [])
  = Some (JDict [("resname", JNull); ("resnr", JInt 12); ("chain", JStr "")]) /\
  JNull <> JStr "UNK".
Proof. split; [reflexivity | discriminate]. Qed.

(** C8 (amended). In [make_res_label], for a record whose [label] field
    back-fills nothing: when no name synonym is truthy the label starts
    with ["UNK"], when no number synonym is truthy its number is ["?"], and
    the empty record is labelled ["UNK?"].  In [find_residue_info] an
    element with a number and no name is accepted with [resname] left as
    [None]. *)
Theorem C8_sentinels
    (repr : json -> string) (item : list (string * json))
    (e : XmlToJson.element) (num : string) (chain : option string) :
  Spec.label_groups item = None ->
  XmlToJson.probe e = (None, Some num, chain) ->
  String.eqb num "" = false ->
  (Spec.first_truthy Spec.name_keys item = None ->
   Visual.make_res_label repr (JDict item) =
   "UNK" ++ Spec.label_number repr item ++ Spec.chain_suffix repr item) /\
  (Spec.first_truthy Spec.num_keys item = None ->
   Visual.make_res_label repr (JDict item) =
   Spec.label_name repr item ++ "?" ++ Spec.chain_suffix repr item) /\
  Visual.make_res_label repr (JDict []) = "UNK?" /\
  XmlToJson.find_residue_info e =
    Some (JDict [ ("resname", JNull);
                  ("resnr", match Py.first_int num with
                            | Some n => JInt n
                            | None => JStr num
                            end);
                  ("chain",
                   JStr (match chain with Some s => s | None => "" end)) ]).
Proof.
  intros Hl Hp Hn. cbn [Visual.make_res_label].
  rewrite (VisualFacts.dict_label_plain repr item Hl).
  split; [|split; [|split]].
  - intros E. unfold Spec.label_name. now rewrite E.
  - intros E. unfold Spec.label_number. now rewrite E.
  - reflexivity.
  - unfold XmlToJson.find_residue_info. rewrite Hp.
    cbn [XmlToJson.truthy_s negb andb XmlToJson.str_s].
    rewrite Hn. cbn [negb andb]. now destruct chain.
Qed.

Lemma C8_witness :
  Visual.make_res_label (fun _ => "") (JDict [("chain", JStr "A")]) =
    "UNK" ++ "?" ++ "_A" /\
  XmlToJson.find_residue_info
    (XmlToJson.Element "residue" [("number", "12")] None []) =
    Some (JDict [("resname", JNull); ("resnr", JInt 12); ("chain", JStr "")]).
Proof.
  pose proof (C8_sentinels (fun _ => "") [("chain", JStr "A")]
                (XmlToJson.Element "residue" [("number", "12")] None [])
                "12" None eq_refl eq_refl eq_refl) as (H1 & _ & _ & H2).
  split; [exact (H1 eq_refl) | exact H2].
Defined.

(** C9 (counterexample). On the JSON path the record [{}], with neither a
    name nor a number, reaches the table: it is the row [UNK?]. *)
Lemma C9_counterexample :
  exists out,
    Visual.normalize_json [("contacts", JList [JDict []])] = Some out /\
    Visual.build_counts (fun _ => "") (Visual.as_dict all_categories out) =
      ([("UNK?", Visual.mkRow 0 1 0 0)], 1).
Proof. eexists. split; reflexivity. Qed.

(** C9 (amended). On the XML path an element in which both the name and
    the number are absent (no non-empty identity attribute, no child with
    text or with a name or number attribute) makes [find_residue_info]
    return [None], and the collecting loop appends nothing for it.  On the
    JSON path there is no such filter: the record [{}] is counted as the
    row [UNK?]. *)
Theorem C9_anonymous_records
    (repr : json -> string) (e : XmlToJson.element)
    (st : list json * bool) (c : category) :
  Spec.bare e = true ->
  XmlToJson.find_residue_info e = None /\
  XmlToJson.collect_step st e = st /\
  Visual.build_counts repr [(c, [JDict []])] =
    ([("UNK?", Visual.bump c Visual.zero_row)], 1).
Proof.
  intros H. apply XmlFacts.bare_probe, XmlFacts.anonymous_none in H.
  split; [exact H|]. split.
  - unfold XmlToJson.collect_step. rewrite H.
    now destruct (XmlToJson.residue_like e).
  - now destruct c.
Qed.

Lemma C9_witness :
  let e := XmlToJson.Element "residue" [("chain", "A"); ("resnr", "")] None
             [XmlToJson.Element "atom" [("id", "7")] (Some "  ") []] in
  XmlToJson.find_residue_info e = None /\
  XmlToJson.collect_step ([], false) e = ([], false) /\
  Visual.build_counts (fun _ => "") [(Ionic, [JDict []])] =
    ([("UNK?", Visual.bump Ionic Visual.zero_row)], 1).
Proof.
  exact (C9_anonymous_records (fun _ => "")
           (XmlToJson.Element "residue" [("chain", "A"); ("resnr", "")] None
              [XmlToJson.Element "atom" [("id", "7")] (Some "  ") []])
           ([], false) Ionic eq_refl).
Defined.

(** C10. When a classified element contains another classified element,
    a residue node below the inner one that yields a record is appended by
    both: the record is in the category of each, and twice in the list when
    the two categories are the same. *)
Theorem C10_nested_classified_elements
    (root outer inner r : XmlToJson.element) (ri : json) (c1 c2 : category) :
  In outer (XmlToJson.iter root) ->
  In inner (flat_map XmlToJson.iter (XmlToJson.children outer)) ->
  XmlToJson.candidate outer = Some c1 ->
  XmlToJson.candidate inner = Some c2 ->
  In r (XmlToJson.iter inner) ->
  XmlToJson.residue_like r = true ->
  XmlToJson.find_residue_info r = Some ri ->
  let out := XmlToJson.walk_and_collect root in
  In ri (bin c1 out) /\ In ri (bin c2 out) /\
  (c1 = c2 ->
   exists l1 l2 l3, bin c1 out = (l1 ++ ri :: l2 ++ ri :: l3)%list).
Proof.
  intros Ho Hi Hc1 Hc2 Hr Hl Hf out.
  assert (Hio : In inner (XmlToJson.iter outer))
    by (rewrite XmlFacts.iter_eq; now right).
  assert (Hro : In r (XmlToJson.iter outer))
    by (eapply XmlFacts.iter_trans; eassumption).
  pose proof (XmlFacts.in_emitted c1 outer r ri Hc1 Hro Hl Hf) as E1.
  pose proof (XmlFacts.in_emitted c2 inner r ri Hc2 Hr Hl Hf) as E2.
  assert (Hir : In inner (XmlToJson.iter root))
    by (eapply XmlFacts.iter_trans; eassumption).
  subst out. split; [|split].
  - rewrite XmlFacts.walk_and_collect_bin. apply in_flat_map. eauto.
  - rewrite XmlFacts.walk_and_collect_bin. apply in_flat_map. eauto.
  - intros <-. rewrite XmlFacts.walk_and_collect_bin.
    destruct (XmlFacts.iter_split root outer Ho) as (a & b & ->).
    destruct (XmlFacts.iter_children_split outer inner Hi) as (l1 & l2 & ->).
    rewrite (XmlFacts.iter_eq inner). now apply XmlFacts.flat_map_twice.
Qed.

Lemma C10_witness :
  let ri := JDict [("resname", JStr "SER"); ("resnr", JInt 12);
                   ("chain", JStr "A")] in
  let inner := XmlToJson.Element "hydrogen_bond" [] None [Spec.ser12] in
  let outer := XmlToJson.Element "hydrogen_bonds" [] None [inner] in
  let out := XmlToJson.walk_and_collect
               (XmlToJson.Element "report" [] None [outer]) in
  In ri (bin HBonds out) /\ In ri (bin HBonds out) /\
  (HBonds = HBonds ->
   exists l1 l2 l3, bin HBonds out = (l1 ++ ri :: l2 ++ ri :: l3)%list).
Proof.
  apply (C10_nested_classified_elements
           (XmlToJson.Element "report" [] None
              [XmlToJson.Element "hydrogen_bonds" [] None
                 [XmlToJson.Element "hydrogen_bond" [] None [Spec.ser12]]])
           (XmlToJson.Element "hydrogen_bonds" [] None
              [XmlToJson.Element "hydrogen_bond" [] None [Spec.ser12]])
           (XmlToJson.Element "hydrogen_bond" [] None [Spec.ser12])
           Spec.ser12
           (JDict [("resname", JStr "SER"); ("resnr", JInt 12);
                   ("chain", JStr "A")])
           HBonds HBonds);
    try reflexivity; cbn; auto.
Defined.

(* ================================================================== *)
(** * Further properties of the two scripts                             *)
(* ================================================================== *)

Module Extras.
Import Py XmlToJson Visual Spec.

(** ** [xmltojson.py] *)

(** X1. [tag_localname] drops a namespace prefix up to the last closing
    brace and lower-cases what is left; a tag without a brace is only
    lower-cased; the result holds no brace and is a fixed point. *)
Theorem X1_tag_localname :
  (forall ns local,
      has_brace local = false ->
      tag_localname (ns ++ String brace local) = lower local) /\
  (forall t, has_brace t = false -> tag_localname t = lower t) /\
  (forall t, has_brace (tag_localname t) = false /\
             tag_localname (tag_localname t) = tag_localname t).
Proof.
  unfold tag_localname. change "}"%char with brace. split; [|split].
  - intros ns local H. now rewrite PyFacts.after_last_app.
  - intros t H. now rewrite PyFacts.after_last_none.
  - intros t. assert (H : has_brace (lower (after_last brace t)) = false)
      by (rewrite PyFacts.lower_brace; apply PyFacts.after_last_clean).
    split; [exact H|]. rewrite (PyFacts.after_last_none _ H).
    apply PyFacts.lower_idem.
Qed.

Lemma X1_witness :
  tag_localname ("{urn:a}{urn:b" ++ String brace "HBond") = "hbond" /\
  tag_localname "Residue" = "residue".
Proof.
  split.
  - exact (proj1 X1_tag_localname "{urn:a}{urn:b" "HBond" eq_refl).
  - exact (proj1 (proj2 X1_tag_localname) "Residue" eq_refl).
Defined.

(** X2. Whatever [find_residue_info] returns is a dictionary with the keys
    [resname], [resnr], [chain] in this order: the name a string or
    [None], the number an integer or a string, the chain always a string;
    and it is returned only when a name or a number was found. *)
Theorem X2_residue_info_shape (e : element) (d : json) :
  find_residue_info e = Some d ->
  exists name rn chain,
    d = JDict [("resname", name); ("resnr", rn); ("chain", JStr chain)] /\
    (name = JNull \/ exists s, name = JStr s) /\
    ((exists n, rn = JInt n) \/ exists s, rn = JStr s) /\
    anonymous (probe e) = false.
Proof.
  unfold find_residue_info, anonymous.
  destruct (probe e) as [[name num] chain].
  destruct (negb (truthy_s name) && negb (truthy_s num))%bool; [discriminate|].
  intros [= <-].
  exists (match name with Some s => JStr s | None => JNull end),
         (match first_int (str_s num) with
          | Some n => JInt n
          | None => JStr (str_s num)
          end),
         (match chain with Some s => s | None => "" end).
  split; [now destruct chain|]. split; [|split; [|reflexivity]].
  - destruct name; eauto.
  - destruct (first_int (str_s num)); eauto.
Qed.

Lemma X2_witness :
  exists name rn chain,
    JDict [("resname", JNull); ("resnr", JStr "x"); ("chain", JStr "B")] =
    JDict [("resname", name); ("resnr", rn); ("chain", JStr chain)] /\
    (name = JNull \/ exists s, name = JStr s) /\
    ((exists n, rn = JInt n) \/ exists s, rn = JStr s) /\
    anonymous (probe (Element "atom" [("seq", "x"); ("chain", "B")] None []))
    = false.
Proof.
  exact (X2_residue_info_shape
           (Element "atom" [("seq", "x"); ("chain", "B")] None []) _ eq_refl).
Defined.

(** X3. When the attributes of an element already give a name and a
    number (neither probe ends with [None]), [find_residue_info] reads
    nothing else: tag, text and children do not change its result, and a
    missing chain is not looked up in the children. *)
Theorem X3_attributes_suffice
    (t t' : string) (a : list (string * string)) (x x' : option string)
    (cs cs' : list element) :
  incomplete (attrib_fields a) = false ->
  find_residue_info (Element t a x cs) =
  find_residue_info (Element t' a x' cs').
Proof.
  intros H. unfold find_residue_info, probe. cbn [attrib children].
  now rewrite !H.
Qed.

Lemma X3_witness :
  find_residue_info
    (Element "residue" [("name", "LYS"); ("seq", "7")] None
       [Element "chain" [] (Some "B") []]) =
  find_residue_info (Element "x" [("name", "LYS"); ("seq", "7")] None []).
Proof.
  exact (X3_attributes_suffice "residue" "x" [("name", "LYS"); ("seq", "7")]
           None None [Element "chain" [] (Some "B") []] [] eq_refl).
Defined.

(** X4. A number attribute that is the decimal text of an integer [n]
    comes out as the integer [n], for every [n], negative ones and zero
    included, whatever the name is. *)
Theorem X4_number_round_trip
    (t : string) (a : list (string * string)) (x : option string)
    (cs : list element) (name : string) (n : Z) (chain : option string) :
  attrib_fields a = (Some name, Some (str_of_int n), chain) ->
  find_residue_info (Element t a x cs) =
  Some (JDict [ ("resname", JStr name); ("resnr", JInt n);
                ("chain",
                 JStr (match chain with Some s => s | None => "" end)) ]).
Proof.
  intros H. unfold find_residue_info, probe. cbn [attrib children].
  rewrite H. cbn [incomplete is_none_s orb]. cbn [str_s].
  rewrite PyFacts.first_int_str_of_int.
  assert (T : truthy_s (Some (str_of_int n)) = true).
  { destruct (PyFacts.str_of_int_shape n) as (c & s & _ & _ & ->).
    now destruct (n <? 0). }
  rewrite T, andb_false_r. now destruct chain.
Qed.

Lemma X4_witness :
  find_residue_info
    (Element "residue" [("resnr", str_of_int (-3)); ("resname", "HOH")]
       None []) =
  Some (JDict [("resname", JStr "HOH"); ("resnr", JInt (-3));
               ("chain", JStr "")]).
Proof.
  exact (X4_number_round_trip "residue"
           [("resnr", str_of_int (-3)); ("resname", "HOH")] None []
           "HOH" (-3) None eq_refl).
Defined.

(** X5. A record is in category [c] of what [walk_and_collect] returns
    exactly when some element of the tree classifies to [c] and either a
    residue-like node of its subtree yields the record, or no residue-like
    node of its subtree yields anything and the element itself yields the
    record. *)
Theorem X5_collected_records (root : element) (c : category) (ri : json) :
  In ri (bin c (walk_and_collect root)) <->
  exists e,
    In e (iter root) /\ candidate e = Some c /\
    ((exists r, In r (iter e) /\ residue_like r = true /\
                find_residue_info r = Some ri) \/
     ((forall r, In r (iter e) -> residue_like r = true ->
                 find_residue_info r = None) /\
      find_residue_info e = Some ri)).
Proof.
  rewrite XmlFacts.walk_and_collect_bin, in_flat_map. split.
  - intros (e & He & H). exists e. split; auto. unfold emitted in H.
    destruct (candidate e) as [c'|]; [|now destruct H].
    destruct c, c'; cbn [category_eqb] in H; try now destruct H.
    all: split; auto; now apply XmlFacts.in_gathered_iff.
  - intros (e & He & Hc & H). exists e. split; auto.
    unfold emitted. rewrite Hc.
    replace (category_eqb c c) with true by now destruct c.
    now apply XmlFacts.in_gathered_iff.
Qed.

Lemma X5_witness :
  In (JDict [("resname", JStr "ASP"); ("resnr", JInt 3); ("chain", JStr "")])
     (bin Ionic
        (walk_and_collect
           (Element "report" [] None
              [Element "salt_bridge" [("resname", "ASP"); ("resnr", "3")]
                 None []]))).
Proof.
  apply (proj2 (X5_collected_records _ Ionic _)).
  exists (Element "salt_bridge" [("resname", "ASP"); ("resnr", "3")] None []).
  split; [cbn; auto|]. split; [reflexivity|]. right. split; [|reflexivity].
  intros r [<-|[]]. discriminate.
Defined.

(** X6. A classified element without children contributes its own record
    at most once, to its own category only, whether or not its tag is
    residue-like: the loop over the subtree and the fall-back never both
    append it. *)
Theorem X6_leaf_element
    (t : string) (a : list (string * string)) (x : option string)
    (c : category) :
  candidate (Element t a x []) = Some c ->
  forall c',
    bin c' (walk_and_collect (Element t a x [])) =
    if category_eqb c c' then own_info (Element t a x []) else [].
Proof.
  intros Hc c'. rewrite XmlFacts.walk_and_collect_bin.
  cbn [iter flat_map List.app]. rewrite app_nil_r.
  unfold emitted. rewrite Hc.
  destruct (category_eqb c c'); [|reflexivity].
  unfold gathered, harvest. cbn [iter flat_map List.app]. rewrite app_nil_r.
  destruct (residue_like (Element t a x [])); [|reflexivity].
  now destruct (own_info (Element t a x [])).
Qed.

Lemma X6_witness :
  bin Hydrophobic
    (walk_and_collect
       (Element "hydrophobic_residue"
          [("resname", "LEU"); ("resnr", "5")] None [])) =
  own_info (Element "hydrophobic_residue"
              [("resname", "LEU"); ("resnr", "5")] None []).
Proof.
  exact (X6_leaf_element "hydrophobic_residue"
           [("resname", "LEU"); ("resnr", "5")] None Hydrophobic eq_refl
           Hydrophobic).
Defined.

(** ** From the converter to the labels and the table *)

(** X7. The record the converter writes for an element with a non-empty
    name and a number holding the integer [n] is labelled by
    [make_res_label] with the name, then [n], then ["_"] and the chain when
    there is one; but the number 0 is labelled ["?"], since the label is
    built from truthy fields only. *)
Theorem X7_label_of_converted_residue
    (repr : json -> string) (e : element) (name num : string)
    (chain : option string) (n : Z) :
  probe e = (Some name, Some num, chain) ->
  String.eqb name "" = false ->
  first_int num = Some n ->
  exists d,
    find_residue_info e = Some d /\
    make_res_label repr d =
    name ++ (if n =? 0 then "?" else str_of_int n) ++
    match chain with
    | Some s => if String.eqb s "" then "" else "_" ++ s
    | None => ""
    end.
Proof.
  intros Hp Hn Hi. unfold find_residue_info. rewrite Hp.
  cbn [truthy_s str_s]. rewrite Hn, Hi. cbn [negb andb].
  eexists. split; [reflexivity|].
  cbn [make_res_label]. unfold dict_label, backfill, name_of, num_of, chain_of.
  cbn [Json.get Json.assoc String.eqb Ascii.eqb Bool.eqb].
  assert (Tn : Json.truthy (JStr name) = true) by (cbn; now rewrite Hn).
  rewrite !(VisualFacts.py_or_true _ _ Tn). cbn [Json.is_none andb].
  rewrite !(VisualFacts.py_or_true _ _ Tn).
  assert (Hnum : num_text repr
                   (Json.py_or
                      (Json.py_or
                         (Json.py_or
                            (Json.py_or (Json.py_or (JInt n) JNull) JNull)
                            JNull) JNull) (JStr "?")) =
                 if n =? 0 then "?" else str_of_int n).
  { destruct (Z.eqb_spec n 0) as [->|Hz]; [reflexivity|].
    assert (Tz : Json.truthy (JInt n) = true).
    { cbn. now destruct (Z.eqb_spec n 0). }
    rewrite !(VisualFacts.py_or_true _ _ Tz).
    now rewrite (VisualFacts.num_text_number_text repr (JInt n)). }
  rewrite Hnum. destruct chain as [s|].
  - destruct (String.eqb_spec s "") as [->|Hs].
    + cbn. now rewrite PyFacts.append_nil_r.
    + assert (Ts : Json.truthy (JStr s) = true)
        by (cbn; now destruct (String.eqb_spec s "")).
      rewrite !(VisualFacts.py_or_true _ _ Ts), Ts. reflexivity.
  - cbn. now rewrite PyFacts.append_nil_r.
Qed.

Lemma X7_witness :
  exists d,
    find_residue_info
      (Element "residue" [("chain", "A")] None
         [Element "resname" [] (Some " SER ") [];
          Element "resnr" [] (Some "0") []]) = Some d /\
    make_res_label (fun _ => "") d = "SER" ++ "?" ++ "_A".
Proof.
  exact (X7_label_of_converted_residue (fun _ => "")
           (Element "residue" [("chain", "A")] None
              [Element "resname" [] (Some " SER ") [];
               Element "resnr" [] (Some "0") []])
           "SER" "0" (Some "A") 0 eq_refl eq_refl eq_refl).
Defined.

(** X8. The document the converter writes, read back and given to
    [visual.py]: [normalize_json] never raises on it, each category holds
    the collected records twice over, and the total [main] reports is
    twice the number of records the converter collected. *)
Theorem X8_converter_then_counts
    (repr : json -> string) (order : list category) (root : element) :
  Permutation all_categories order ->
  let collected := walk_and_collect root in
  exists out df,
    normalize_json (document (XmlToJson.main root)) = Some out /\
    (forall c, bin c out = (bin c collected ++ bin c collected)%list) /\
    Visual.main repr order (document (XmlToJson.main root)) =
      Some (df, 2 * Z.of_nat (List.length (all_bins collected))).
Proof.
  intros Hp collected.
  assert (Hn : normalize_json (document (XmlToJson.main root)) =
               Some (mkBins
                       (bin HBonds collected ++ bin HBonds collected)
                       (bin Hydrophobic collected ++ bin Hydrophobic collected)
                       (bin Ionic collected ++ bin Ionic collected)
                       (bin WaterBridges collected ++
                        bin WaterBridges collected))%list)
    by reflexivity.
  eexists. eexists. split; [exact Hn|]. split.
  - intros []; reflexivity.
  - unfold Visual.main. rewrite Hn.
    rewrite (surjective_pairing (build_counts repr _)).
    rewrite VisualFacts.build_counts_total,
            VisualFacts.as_dict_length by assumption.
    cbn [b_hbonds b_hydrophobic b_ionic b_water bin].
    f_equal. f_equal. unfold all_bins. rewrite !length_app. lia.
Qed.

Lemma X8_witness :
  let collected :=
    walk_and_collect
      (Element "report" [] None
         [Element "hydrogen_bond" [] None [Spec.ser12]]) in
  exists out df,
    normalize_json
      (document
         (XmlToJson.main
            (Element "report" [] None
               [Element "hydrogen_bond" [] None [Spec.ser12]]))) = Some out /\
    (forall c, bin c out = (bin c collected ++ bin c collected)%list) /\
    Visual.main (fun _ => "") all_categories
      (document
         (XmlToJson.main
            (Element "report" [] None
               [Element "hydrogen_bond" [] None [Spec.ser12]]))) =
      Some (df, 2 * Z.of_nat (List.length (all_bins collected))).
Proof.
  exact (X8_converter_then_counts (fun _ => "") all_categories
           (Element "report" [] None
              [Element "hydrogen_bond" [] None [Spec.ser12]])
           (Permutation_refl _)).
Defined.

(** ** [normalize_json] *)

(** X9. [normalize_json] raises exactly when the document binds a
    canonical key name (in any letter case; the last such key counts) to a
    value that is neither a list, nor a dictionary, nor a string.  Any
    other value of any other key is accepted. *)
Theorem X9_normalize_json_raises (d : list (string * json)) :
  normalize_json d = None <->
  exists ck v,
    In ck canonical_names /\ canonical_value d ck = Some v /\
    iterable v = false.
Proof.
  unfold normalize_json.
  destruct (fold_left (use_canonical d) canonical_keys (Some empty_bins))
    as [out|] eqn:E.
  - split; [discriminate|]. intros (ck & v & H1 & H2 & H3). exfalso.
    assert (N : fold_left (use_canonical d) canonical_keys (Some empty_bins)
                = None).
    { apply VisualFacts.canonical_fold_none. right.
      unfold canonical_names in H1.
      apply in_map_iff in H1 as (p & <- & Hp). exists p, v. auto. }
    congruence.
  - split; auto. intros _.
    apply VisualFacts.canonical_fold_none in E
      as [E|(ck & v & H1 & H2 & H3)]; [discriminate|].
    exists (fst ck), v. split; auto. now apply in_map.
Qed.

Lemma X9_witness :
  normalize_json [("hbonds", JInt 3); ("Water_Bridges", JNull)] = None.
Proof.
  apply (proj2 (X9_normalize_json_raises
                  [("hbonds", JInt 3); ("Water_Bridges", JNull)])).
  exists "water_bridges", JNull. split; [cbn; auto|]. split; reflexivity.
Defined.

(** X10. An entry whose value is not a list and whose key is not a
    canonical name, in any letter case, is ignored: the document gives the
    same result with and without it, an error included. *)
Theorem X10_non_list_ignored
    (pre post : list (string * json)) (k : string) (v : json) :
  is_list v = false ->
  mem (lower k) canonical_names = false ->
  normalize_json (pre ++ (k, v) :: post) = normalize_json (pre ++ post).
Proof.
  intros Hv Hk. unfold normalize_json.
  fold (canonical_pass (pre ++ (k, v) :: post)).
  fold (canonical_pass (pre ++ post)).
  rewrite VisualFacts.canonical_pass_skip_key by assumption.
  destruct (canonical_pass (pre ++ post)) as [out|]; [|reflexivity].
  f_equal. rewrite !fold_left_app. cbn [fold_left]. f_equal.
  unfold heuristic_step. cbn [snd]. now destruct v.
Qed.

Lemma X10_witness :
  normalize_json
    ([("ionic", JList [JStr "ASP3"])] ++
     ("hydrogen_count", JInt 4) :: [("id", JStr "1abc")]) =
  normalize_json
    ([("ionic", JList [JStr "ASP3"])] ++ [("id", JStr "1abc")]).
Proof.
  exact (X10_non_list_ignored [("ionic", JList [JStr "ASP3"])]
           [("id", JStr "1abc")] "hydrogen_count" (JInt 4) eq_refl eq_refl).
Defined.

(** X11. For a document none of whose keys is a canonical name, in any
    letter case, [normalize_json] does not raise and the four categories
    together hold exactly the items of the list-valued entries: none is
    lost, repeated or invented; the total [main] reports is their number. *)
Theorem X11_items_conserved
    (repr : json -> string) (order : list category)
    (d : list (string * json)) :
  canonical_free d = true ->
  Permutation all_categories order ->
  exists out,
    normalize_json d = Some out /\
    Permutation (all_bins out) (list_items d) /\
    option_map snd (Visual.main repr order d) =
      Some (Z.of_nat (List.length (list_items d))).
Proof.
  intros Hf Hp. pose proof (VisualFacts.canonical_free_pass d Hf) as Hc.
  exists (fold_left heuristic_step d empty_bins).
  assert (Hn : normalize_json d = Some (fold_left heuristic_step d empty_bins))
    by now apply VisualFacts.normalize_json_of_pass.
  assert (Hperm : Permutation (all_bins (fold_left heuristic_step d empty_bins))
                              (list_items d)).
  { unfold all_bins.
    change (b_hbonds ?o) with (bin HBonds o).
    change (b_hydrophobic ?o) with (bin Hydrophobic o).
    change (b_ionic ?o) with (bin Ionic o).
    change (b_water ?o) with (bin WaterBridges o).
    rewrite !VisualFacts.heuristic_fold_bin.
    cbn [bin empty_bins b_hbonds b_hydrophobic b_ionic b_water List.app].
    apply VisualFacts.contributions_all. }
  split; [exact Hn|]. split; [exact Hperm|].
  unfold Visual.main. rewrite Hn. cbn [option_map]. f_equal.
  rewrite VisualFacts.build_counts_total,
          VisualFacts.as_dict_length by assumption.
  rewrite <- (Permutation_length Hperm). unfold all_bins.
  rewrite !length_app. lia.
Qed.

Lemma X11_witness :
  let d := [("salt", JList [JStr "ASP3"; JStr "LYS7"]); ("note", JStr "x");
            ("other", JList [JInt 1])] in
  exists out,
    normalize_json d = Some out /\
    Permutation (all_bins out) (list_items d) /\
    option_map snd (Visual.main (fun _ => "") all_categories d) = Some 3.
Proof.
  exact (X11_items_conserved (fun _ => "") all_categories
           [("salt", JList [JStr "ASP3"; JStr "LYS7"]); ("note", JStr "x");
            ("other", JList [JInt 1])]
           eq_refl (Permutation_refl _)).
Defined.

(** X12. A list-valued entry whose key is not a canonical name is passed
    whole to one category: the one of the first keyword found in its key,
    whatever its items say, else the one hinted by the [type] or
    [interaction] field of its first item.  The other categories and the
    other items of that category are left as they are. *)
Theorem X12_entry_routed
    (pre post : list (string * json)) (k : string) (val : list json)
    (c : category) (out0 : bins) :
  first_keyword Visual.mapping (lower k) = Some c \/
  (first_keyword Visual.mapping (lower k) = None /\ type_hint val = Some c) ->
  mem (lower k) canonical_names = false ->
  normalize_json (pre ++ post) = Some out0 ->
  exists out,
    normalize_json (pre ++ (k, JList val) :: post) = Some out /\
    forall c', exists a b,
      bin c' out0 = (a ++ b)%list /\
      bin c' out =
      (a ++ (if category_eqb c c' then val else []) ++ b)%list.
Proof.
  intros Hr Hk H0.
  assert (Hcon : forall c', contribution c' (k, JList val) =
                            if category_eqb c c' then val else []).
  { intros c'. unfold contribution, heuristic_step. cbn [fst snd].
    destruct Hr as [->|[-> ->]]; now destruct c, c'. }
  destruct (VisualFacts.normalize_json_bin _ _ HBonds H0) as (out1 & Hp1 & _).
  exists (fold_left heuristic_step (pre ++ (k, JList val) :: post) out1).
  split.
  { apply VisualFacts.normalize_json_of_pass.
    now rewrite VisualFacts.canonical_pass_skip_key. }
  intros c'.
  destruct (VisualFacts.normalize_json_bin _ _ c' H0) as (out1' & Hp1' & E).
  rewrite Hp1 in Hp1'. injection Hp1' as <-.
  exists (bin c' out1 ++ flat_map (contribution c') pre)%list,
         (flat_map (contribution c') post).
  rewrite E, VisualFacts.heuristic_fold_bin, !flat_map_app. cbn [flat_map].
  rewrite Hcon. now rewrite !app_assoc.
Qed.

Lemma X12_witness :
  exists out,
    normalize_json
      ([] ++ ("HBond_list",
              JList [JDict [("type", JStr "salt")]; JStr "SER12"]) :: []) =
    Some out /\
    forall c', exists a b,
      bin c' empty_bins = (a ++ b)%list /\
      bin c' out =
      (a ++ (if category_eqb HBonds c'
             then [JDict [("type", JStr "salt")]; JStr "SER12"] else [])
         ++ b)%list.
Proof.
  exact (X12_entry_routed [] [] "HBond_list"
           [JDict [("type", JStr "salt")]; JStr "SER12"] HBonds empty_bins
           (or_introl eq_refl) eq_refl eq_refl).
Defined.

(** ** [build_counts] and the labels *)

(** X13. The table has one row per label met, no label twice; the cell of
    a row under a category is the number of items of that category that
    are labelled so, and every row counts at least one item. *)
Theorem X13_table_rows
    (repr : json -> string) (normalized : list (category * list json)) :
  let df := fst (build_counts repr normalized) in
  NoDup (map fst df) /\
  (forall lbl r,
      In (lbl, r) df <->
      In lbl (map (make_res_label repr) (List.concat (map snd normalized))) /\
      forall c, cell c r = label_count repr c lbl normalized) /\
  (forall lbl r, In (lbl, r) df -> 1 <= row_total r).
Proof.
  cbv zeta. split; [apply VisualFacts.build_counts_keys_nodup|].
  assert (Hrows : forall lbl r,
             In (lbl, r) (fst (build_counts repr normalized)) <->
             In lbl (map (fun ci => make_res_label repr (snd ci))
                         (tagged normalized)) /\
             forall c, cell c r = label_count repr c lbl normalized).
  { intros lbl r. rewrite VisualFacts.build_counts_in.
    rewrite <- VisualFacts.encounter_in.
    destruct (VisualFacts.count_all_spec repr normalized) as (Hk & _).
    split.
    - intros H. split.
      + rewrite <- Hk. apply in_map_iff. exists (lbl, r). auto.
      + intros c. rewrite <- VisualFacts.count_all_row. unfold row_of.
        now rewrite (VisualFacts.in_assoc _ _ _
                       (VisualFacts.count_all_keys_nodup repr normalized) H).
    - intros [Hl Hc]. rewrite <- Hk in Hl.
      destruct (Json.assoc (fst (count_all repr normalized)) lbl)
        as [r'|] eqn:E.
      + apply VisualFacts.assoc_in in E as E'. replace r with r'; auto.
        apply VisualFacts.row_ext. intros c.
        rewrite Hc, <- VisualFacts.count_all_row. unfold row_of.
        now rewrite E.
      + apply VisualFacts.assoc_none in E. contradiction. }
  split.
  - intros lbl r. rewrite Hrows, VisualFacts.tagged_labels. reflexivity.
  - intros lbl r H. apply Hrows in H as [Hl Hc].
    apply in_map_iff in Hl as ([c0 it] & El & Hin). cbn [snd] in El.
    assert (P : forall c, 0 <= cell c r)
      by (intros c; rewrite Hc; apply VisualFacts.label_count_pos).
    assert (One : 1 <= cell c0 r).
    { rewrite Hc. unfold label_count.
      assert (Hf : In (c0, it)
                      (filter (fun ci =>
                                 (category_eqb (fst ci) c0 &&
                                  String.eqb (make_res_label repr (snd ci))
                                             lbl)%bool)
                              (tagged normalized))).
      { apply filter_In. split; auto. cbn [fst snd].
        rewrite El, String.eqb_refl. now destruct c0. }
      destruct (filter _ (tagged normalized)); [destruct Hf|].
      cbn [List.length]. lia. }
    pose proof (P HBonds). pose proof (P Hydrophobic). pose proof (P Ionic).
    pose proof (P WaterBridges). unfold row_total.
    destruct c0; cbn [cell] in *; lia.
Qed.

Lemma X13_witness :
  In ("LEU5", mkRow 1 2 0 0)
     (fst (build_counts (fun _ => "")
             [(HBonds, [JStr "LEU5"; JStr "SER12"]);
              (Hydrophobic, [JStr "LEU 5"; JStr "LEU5"])])).
Proof.
  apply (proj2 (proj1 (proj2 (X13_table_rows (fun _ => "")
                                [(HBonds, [JStr "LEU5"; JStr "SER12"]);
                                 (Hydrophobic, [JStr "LEU 5"; JStr "LEU5"])]))
                  "LEU5" (mkRow 1 2 0 0))).
  split; [cbn; auto|]. intros []; reflexivity.
Defined.

(** X14. The table is empty exactly when the total is 0, and that exactly
    when every category list is empty; a report without items gives an
    empty table and no error. *)
Theorem X14_empty_table
    (repr : json -> string) (normalized : list (category * list json)) :
  (fst (build_counts repr normalized) = [] <->
   snd (build_counts repr normalized) = 0) /\
  (snd (build_counts repr normalized) = 0 <->
   Forall (fun e => snd e = []) normalized).
Proof.
  rewrite VisualFacts.build_counts_total, <- VisualFacts.tagged_nil.
  assert (T : Z.of_nat (List.length (tagged normalized)) = 0 <->
              tagged normalized = []).
  { destruct (tagged normalized); cbn [List.length]; split;
      try lia; auto; discriminate. }
  split; [|exact T]. rewrite T. split.
  - intros H. destruct (tagged normalized) as [|[c it] l] eqn:E; auto.
    exfalso.
    assert (Hin : In (make_res_label repr it)
                     (map fst (fst (build_counts repr normalized)))).
    { rewrite VisualFacts.build_counts_labels.
      eapply Permutation_in; [symmetry; apply PyFacts.sorted_perm|].
      apply VisualFacts.encounter_in. rewrite E. now left. }
    now rewrite H in Hin.
  - intros H. apply map_eq_nil with (f := fst).
    rewrite VisualFacts.build_counts_labels. unfold encounter.
    rewrite <- VisualFacts.tagged_labels, H. reflexivity.
Qed.

Lemma X14_witness :
  fst (build_counts (fun _ => "") [(Ionic, []); (HBonds, [])]) = [] /\
  snd (build_counts (fun _ => "") [(Ionic, []); (HBonds, [])]) = 0.
Proof.
  pose proof (X14_empty_table (fun _ => "") [(Ionic, []); (HBonds, [])])
    as [H1 H2].
  assert (Z0 : snd (build_counts (fun _ => "") [(Ionic, []); (HBonds, [])])
               = 0) by (apply (proj2 H2); repeat constructor).
  split; [exact (proj2 H1 Z0) | exact Z0].
Defined.

(** X15. The order in which the categories are met, which for the
    dictionary of [normalize_json] comes from iterating a set, changes
    neither the rows nor the total: the two tables hold the same rows, in
    possibly different positions. *)
Theorem X15_category_order_irrelevant
    (repr : json -> string)
    (normalized normalized' : list (category * list json)) :
  Permutation normalized normalized' ->
  Permutation (fst (build_counts repr normalized))
              (fst (build_counts repr normalized')) /\
  snd (build_counts repr normalized) = snd (build_counts repr normalized').
Proof.
  intros H. split.
  - apply NoDup_Permutation.
    + eapply NoDup_map_inv. apply VisualFacts.build_counts_keys_nodup.
    + eapply NoDup_map_inv. apply VisualFacts.build_counts_keys_nodup.
    + intros [lbl r].
      rewrite !VisualFacts.build_counts_rows, <- !VisualFacts.tagged_labels.
      split; intros [Hl Hc]; split.
      * eapply Permutation_in; [|exact Hl]. apply Permutation_map.
        now apply VisualFacts.tagged_perm.
      * intros c. rewrite Hc. now apply VisualFacts.label_count_perm.
      * eapply Permutation_in; [|exact Hl]. apply Permutation_map.
        symmetry. now apply VisualFacts.tagged_perm.
      * intros c. rewrite Hc. symmetry.
        now apply VisualFacts.label_count_perm.
  - rewrite !VisualFacts.build_counts_total. f_equal.
    apply Permutation_length. now apply VisualFacts.tagged_perm.
Qed.

Lemma X15_witness :
  Permutation
    (fst (build_counts (fun _ => "")
            [(Ionic, [JStr "x"]); (HBonds, [JStr "y"; JStr "x"])]))
    (fst (build_counts (fun _ => "")
            [(HBonds, [JStr "y"; JStr "x"]); (Ionic, [JStr "x"])])) /\
  snd (build_counts (fun _ => "")
         [(Ionic, [JStr "x"]); (HBonds, [JStr "y"; JStr "x"])]) =
  snd (build_counts (fun _ => "")
         [(HBonds, [JStr "y"; JStr "x"]); (Ionic, [JStr "x"])]).
Proof.
  exact (X15_category_order_irrelevant (fun _ => "")
           [(Ionic, [JStr "x"]); (HBonds, [JStr "y"; JStr "x"])]
           [(HBonds, [JStr "y"; JStr "x"]); (Ionic, [JStr "x"])]
           (perm_swap _ _ _)).
Defined.

(** X16. A label made of a name of letters, the decimal text of an
    integer [n] and a rest that does not start with a digit has [n] as its
    sort key: the labels of well-formed records are ordered by their
    residue number, negative numbers first. *)
Theorem X16_sort_key_of_label (name : string) (n : Z) (rest : string) :
  all_chars is_alpha name = true ->
  starts_with is_digit rest = false ->
  sort_key (name ++ str_of_int n ++ rest) = n.
Proof.
  intros Hn Hr. unfold sort_key, first_int.
  rewrite PyFacts.search_int_skip_letters by assumption.
  rewrite PyFacts.search_int_prefix
    by auto using PyFacts.str_of_int_signed.
  now rewrite PyFacts.int_of_str_of_int.
Qed.

Lemma X16_witness : sort_key ("HOH" ++ str_of_int (-12) ++ "_A") = -12.
Proof.
  exact (X16_sort_key_of_label "HOH" (-12) "_A" eq_refl eq_refl).
Defined.

(** X17. For a record without a name (every name synonym absent or null)
    whose [label] field is a text of the residue pattern, the label is
    rebuilt from that text: its name, its number read as an integer, so
    without leading zeros, and its chain letter, else the record's own
    chain.  A number of the record's own is not used. *)
Theorem X17_label_field_backfill
    (repr : json -> string) (item : list (string * json))
    (t name num chain : string) (n : Z) :
  Forall (fun k => Json.get item k = JNull) name_keys ->
  Json.get item "label" = JStr t ->
  label_shape t name num chain ->
  int_of_str num = Some n ->
  make_res_label repr (JDict item) =
  name ++ str_of_int n ++
  (if String.eqb chain "" then chain_suffix repr item else "_" ++ chain).
Proof.
  intros Hk Hl Hs Hi.
  assert (Hn : name_of item = JNull).
  { unfold name_keys in Hk. unfold name_of.
    repeat match goal with
           | H : Forall _ (_ :: _) |- _ => inversion H; clear H; subst
           end.
    repeat match goal with
           | H : Json.get item _ = JNull |- _ => rewrite H; clear H
           end.
    reflexivity. }
  pose proof Hs as (_ & _ & _ & _ & _ & Hlen & _ & Hsig & _).
  apply PyFacts.residue_match_complete in Hs.
  cbn [make_res_label]. unfold dict_label, backfill.
  rewrite Hn, Hl. cbn [Json.is_none Json.is_str andb]. rewrite Hs.
  assert (Tn : Json.truthy (JStr name) = true).
  { destruct name; [cbn in Hlen; lia|reflexivity]. }
  assert (Tm : Json.truthy (JStr num) = true).
  { destruct num; [discriminate|reflexivity]. }
  rewrite (VisualFacts.py_or_true _ _ Tn), (VisualFacts.py_or_true _ _ Tm).
  unfold num_text. cbn [py_str].
  rewrite PyFacts.first_int_signed, Hi by assumption.
  destruct (String.eqb_spec chain "") as [->|Hc].
  - rewrite VisualFacts.py_or_false by reflexivity. unfold chain_suffix.
    destruct (Json.truthy (chain_of item)); [reflexivity|].
    now rewrite PyFacts.append_nil_r.
  - assert (Tc : Json.truthy (JStr chain) = true).
    { cbn. now destruct (String.eqb_spec chain ""). }
    rewrite (VisualFacts.py_or_true _ _ Tc), Tc. reflexivity.
Qed.

Lemma X17_witness :
  make_res_label (fun _ => "")
    (JDict [("label", JStr "GLU 007"); ("resnr", JInt 99);
            ("chain_id", JStr "B")]) =
  "GLU" ++ str_of_int 7 ++ "_B".
Proof.
  apply (X17_label_field_backfill (fun _ => "")
           [("label", JStr "GLU 007"); ("resnr", JInt 99);
            ("chain_id", JStr "B")] "GLU 007" "GLU" "007" "" 7).
  - repeat constructor.
  - reflexivity.
  - exists " ", "", "". repeat split; auto; cbn; lia.
  - reflexivity.
Defined.

(** X18. A list item that is an integer is labelled by its decimal text,
    never taken apart as a residue; [null] and the booleans are labelled by
    their Python names.  Such items are counted like any other. *)
Theorem X18_scalar_items (repr : json -> string) :
  (forall n, make_res_label repr (JInt n) = str_of_int n) /\
  make_res_label repr JNull = "None" /\
  make_res_label repr (JBool true) = "True" /\
  make_res_label repr (JBool false) = "False".
Proof.
  split; [|repeat split].
  intros n. cbn [make_res_label py_str].
  replace (residue_match (str_of_int n))
    with (@None (string * string * string)); [reflexivity|].
  destruct (PyFacts.str_of_int_shape n) as (c & s & Hc & Hs & ->).
  assert (U : is_upper c = false)
    by (now destruct (PyFacts.digit_not_others c Hc) as (_ & -> & _)).
  destruct (n <? 0); unfold residue_match, residue_match_with;
    cbn [take_upper]; rewrite ?U; reflexivity.
Qed.

(** ** Two more edges *)

(** X19. A non-empty name found among the attributes of an element is the
    name of its record, whatever its children hold: child text and the
    attributes of nested residue elements only fill fields still empty. *)
Theorem X19_attribute_name_kept
    (t : string) (a : list (string * string)) (x : option string)
    (cs : list element) (name : string) :
  fst (fst (attrib_fields a)) = Some name ->
  String.eqb name "" = false ->
  exists rn chain,
    find_residue_info (Element t a x cs) =
    Some (JDict [("resname", JStr name); ("resnr", rn); ("chain", chain)]).
Proof.
  intros Ha Hn.
  assert (T : truthy_s (Some name) = true) by (cbn; now rewrite Hn).
  assert (Ht : forall l st, fst (fst st) = Some name ->
                 fst (fst (fold_left text_step l st)) = Some name).
  { induction l as [|c l IH]; intros st Hst; [exact Hst|].
    cbn [fold_left]. apply IH. destruct st as [[n0 k0] c0]. cbn in Hst.
    subst n0. unfold text_step. cbn [fst].
    destruct (_ && _)%bool; [|reflexivity]. unfold or_s. now rewrite T. }
  assert (Hr : forall l st, fst (fst st) = Some name ->
                 fst (fst (fold_left resid_step l st)) = Some name).
  { induction l as [|c l IH]; intros st Hst; [exact Hst|].
    cbn [fold_left]. apply IH. destruct st as [[n0 k0] c0]. cbn in Hst.
    subst n0. unfold resid_step. destruct (resid_child c); [|reflexivity].
    cbn [fst]. unfold or_s at 2. rewrite T. unfold or_s. now rewrite T. }
  assert (Hp : fst (fst (probe (Element t a x cs))) = Some name).
  { unfold probe. cbn [attrib children].
    destruct (incomplete (attrib_fields a)).
    - destruct (incomplete (fold_left text_step cs (attrib_fields a)));
        auto.
    - destruct (incomplete (attrib_fields a)); auto. }
  unfold find_residue_info.
  destruct (probe (Element t a x cs)) as [[n0 k0] c0]. cbn in Hp. subst n0.
  rewrite T. cbn [negb andb]. eauto.
Qed.

Lemma X19_witness :
  exists rn chain,
    find_residue_info
      (Element "partner" [("resName", "TYR")] None
         [Element "name" [] (Some "OH") [];
          Element "residue" [("name", "CA"); ("number", "15")] None []]) =
    Some (JDict [("resname", JStr "TYR"); ("resnr", rn); ("chain", chain)]).
Proof.
  exact (X19_attribute_name_kept "partner" [("resName", "TYR")] None
           [Element "name" [] (Some "OH") [];
            Element "residue" [("name", "CA"); ("number", "15")] None []]
           "TYR" eq_refl eq_refl).
Defined.

(** X20. A canonical key bound to a string or to a dictionary does not
    raise: the characters of the string, or the keys of the dictionary,
    become the items of the category, once, since the keyword pass only
    looks at lists. *)
Theorem X20_canonical_key_not_a_list
    (ck : string) (c : category) (v : json) (items : list json) :
  In (ck, c) canonical_keys ->
  is_list v = false ->
  iterate v = Some items ->
  normalize_json [(ck, v)] = Some (extend c items empty_bins).
Proof.
  intros Hck Hv Hi. unfold canonical_keys in Hck.
  destruct v as [| | | |s| |d]; try discriminate;
    injection Hi as <-;
    repeat (destruct Hck as [[= <- <-]|Hck]; [reflexivity|]);
    destruct Hck.
Qed.

Lemma X20_witness :
  normalize_json [("ionic_interactions", JStr "AB")] =
  Some (extend Ionic [JStr "A"; JStr "B"] empty_bins).
Proof.
  exact (X20_canonical_key_not_a_list "ionic_interactions" Ionic (JStr "AB")
           [JStr "A"; JStr "B"] (or_intror (or_intror (or_introl eq_refl)))
           eq_refl eq_refl).
Defined.

End Extras.
